(** * Flasher: the serial session hooks of [src/App.tsx]

    A shallow embedding of the hooks [useSerialConnection],
    [useFlashOperations] and [usePreferences] of the flasher web
    application, and of the checksum callback handed to the ESP loader.

    JavaScript strings are sequences of UTF-16 code units, bytes are
    integers below 256, the React state and the [useRef] cells are the
    fields of one record, and every [await] on the browser or on the
    loader library is a call answered by an explicit environment. *)

From Stdlib Require Import String Ascii.
From Stdlib Require Import ZArith QArith List Bool Arith Lia.
From Stdlib Require Import DecimalString.
Import ListNotations.
Local Open Scope Z_scope.
Set Warnings "-register-all".

(** ** JavaScript strings *)

Definition jsstring := list Z.
Definition bytes := list Z.

(** A string literal of the source: its ASCII characters as code units. *)
Definition lit (s : string) : jsstring :=
  map (fun a => Z.of_nat (nat_of_ascii a)) (list_ascii_of_string s).

Fixpoint startsWith (pat s : jsstring) : bool :=
  match pat, s with
  | [], _ => true
  | _ :: _, [] => false
  | p :: pat', c :: s' => (p =? c) && startsWith pat' s'
  end.

(** [String.prototype.includes]. *)
Fixpoint includes (s pat : jsstring) : bool :=
  startsWith pat s ||
  match s with
  | [] => false
  | _ :: s' => includes s' pat
  end.

(** The code units ECMAScript counts as WhiteSpace or LineTerminator. *)
Definition isWhiteSpace (c : Z) : bool :=
  existsb (Z.eqb c)
    [0x09; 0x0A; 0x0B; 0x0C; 0x0D; 0x20; 0xA0; 0x1680;
     0x2000; 0x2001; 0x2002; 0x2003; 0x2004; 0x2005; 0x2006; 0x2007;
     0x2008; 0x2009; 0x200A; 0x2028; 0x2029; 0x202F; 0x205F; 0x3000;
     0xFEFF].

Fixpoint trimStart (s : jsstring) : jsstring :=
  match s with
  | [] => []
  | c :: s' => if isWhiteSpace c then trimStart s' else s
  end.

Definition trimEnd (s : jsstring) : jsstring := rev (trimStart (rev s)).

(** [String.prototype.trim]. *)
Definition trim (s : jsstring) : jsstring := trimEnd (trimStart s).

(** Truthiness of a string: the empty string is the only falsy one. *)
Definition truthy (s : jsstring) : bool :=
  match s with [] => false | _ :: _ => true end.

(** ** The checksum callback: [CryptoJS.MD5(CryptoJS.enc.Latin1.parse(image)).toString()]

    The callback is in the sources; the three functions of the crypto-js
    library that it calls are not.  They are modelled by what they
    compute: [Latin1.parse] keeps the low byte of every code unit, [MD5]
    is the digest of RFC 1321 and [toString] is the library's default
    hexadecimal encoder. *)

Module CryptoJS.

(** Modelled from the spec: [CryptoJS.enc.Latin1.parse], which is not in
    the sources; the image "interpreted as single-byte/Latin-1
    characters". *)
Definition Latin1_parse (s : jsstring) : bytes :=
  map (fun c => Z.land c 0xff) s.

Definition mask32 (x : Z) : Z := Z.land x 0xffffffff.
Definition add32 (x y : Z) : Z := mask32 (x + y).
Definition not32 (x : Z) : Z := Z.lxor x 0xffffffff.
Definition rotl32 (x n : Z) : Z :=
  mask32 (Z.lor (Z.shiftl x n) (Z.shiftr x (32 - n))).

Definition FF (x y z : Z) := Z.lor (Z.land x y) (Z.land (not32 x) z).
Definition GG (x y z : Z) := Z.lor (Z.land x z) (Z.land y (not32 z)).
Definition HH (x y z : Z) := Z.lxor (Z.lxor x y) z.
Definition II (x y z : Z) := Z.lxor y (Z.lor x (not32 z)).

(** [T[i] = floor (2^32 * abs (sin (i + 1)))]. *)
Definition T : list Z :=
  [ 0xd76aa478; 0xe8c7b756; 0x242070db; 0xc1bdceee;
    0xf57c0faf; 0x4787c62a; 0xa8304613; 0xfd469501;
    0x698098d8; 0x8b44f7af; 0xffff5bb1; 0x895cd7be;
    0x6b901122; 0xfd987193; 0xa679438e; 0x49b40821;
    0xf61e2562; 0xc040b340; 0x265e5a51; 0xe9b6c7aa;
    0xd62f105d; 0x02441453; 0xd8a1e681; 0xe7d3fbc8;
    0x21e1cde6; 0xc33707d6; 0xf4d50d87; 0x455a14ed;
    0xa9e3e905; 0xfcefa3f8; 0x676f02d9; 0x8d2a4c8a;
    0xfffa3942; 0x8771f681; 0x6d9d6122; 0xfde5380c;
    0xa4beea44; 0x4bdecfa9; 0xf6bb4b60; 0xbebfbc70;
    0x289b7ec6; 0xeaa127fa; 0xd4ef3085; 0x04881d05;
    0xd9d4d039; 0xe6db99e5; 0x1fa27cf8; 0xc4ac5665;
    0xf4292244; 0x432aff97; 0xab9423a7; 0xfc93a039;
    0x655b59c3; 0x8f0ccc92; 0xffeff47d; 0x85845dd1;
    0x6fa87e4f; 0xfe2ce6e0; 0xa3014314; 0x4e0811a1;
    0xf7537e82; 0xbd3af235; 0x2ad7d2bb; 0xeb86d391 ].

Definition shifts : list Z :=
  [ 7; 12; 17; 22; 7; 12; 17; 22; 7; 12; 17; 22; 7; 12; 17; 22;
    5; 9; 14; 20; 5; 9; 14; 20; 5; 9; 14; 20; 5; 9; 14; 20;
    4; 11; 16; 23; 4; 11; 16; 23; 4; 11; 16; 23; 4; 11; 16; 23;
    6; 10; 15; 21; 6; 10; 15; 21; 6; 10; 15; 21; 6; 10; 15; 21 ].

Record state := State { sa : Z; sb : Z; sc : Z; sd : Z }.

Definition init : state :=
  State 0x67452301 0xefcdab89 0x98badcfe 0x10325476.

(** Little-endian words and bytes. *)
Definition le32 (x : Z) : bytes :=
  [ Z.land x 0xff; Z.land (Z.shiftr x 8) 0xff;
    Z.land (Z.shiftr x 16) 0xff; Z.land (Z.shiftr x 24) 0xff ].

Definition le64 (x : Z) : bytes :=
  le32 (mask32 x) ++ le32 (mask32 (Z.shiftr x 32)).

Definition word_of (b : bytes) : Z :=
  match b with
  | [b0; b1; b2; b3] =>
      Z.lor b0 (Z.lor (Z.shiftl b1 8) (Z.lor (Z.shiftl b2 16) (Z.shiftl b3 24)))
  | _ => 0
  end.

Fixpoint chunks (k n : nat) (b : bytes) : list bytes :=
  match n with
  | O => []
  | S n' => firstn k b :: chunks k n' (skipn k b)
  end.

(** The message, a one bit, zeros up to 56 modulo 64, the bit length. *)
Definition pad (msg : bytes) : bytes :=
  let n := Z.of_nat (length msg) in
  msg ++ [0x80] ++ repeat 0 (Z.to_nat ((55 - n) mod 64)) ++ le64 (8 * n).

Definition step (M : list Z) (s : state) (i : nat) : state :=
  let zi := Z.of_nat i in
  let '(f, g) :=
    if (i <? 16)%nat then (FF (sb s) (sc s) (sd s), zi)
    else if (i <? 32)%nat then (GG (sb s) (sc s) (sd s), (5 * zi + 1) mod 16)
    else if (i <? 48)%nat then (HH (sb s) (sc s) (sd s), (3 * zi + 5) mod 16)
    else (II (sb s) (sc s) (sd s), (7 * zi) mod 16) in
  let x := add32 (add32 (add32 (sa s) f) (nth i T 0)) (nth (Z.to_nat g) M 0) in
  State (sd s) (add32 (sb s) (rotl32 x (nth i shifts 0))) (sb s) (sc s).

Definition processBlock (s : state) (block : bytes) : state :=
  let M := map word_of (chunks 4 16 block) in
  let r := fold_left (step M) (seq 0 64) s in
  State (add32 (sa s) (sa r)) (add32 (sb s) (sb r))
        (add32 (sc s) (sc r)) (add32 (sd s) (sd r)).

(** Modelled from the spec: [CryptoJS.MD5], which is not in the sources;
    "MD5 over the raw image bytes". *)
Definition MD5 (msg : bytes) : bytes :=
  let p := pad msg in
  let s := fold_left processBlock (chunks 64 (length p / 64) p) init in
  le32 (sa s) ++ le32 (sb s) ++ le32 (sc s) ++ le32 (sd s).

Definition hexDigit (n : Z) : Z := nth (Z.to_nat n) (lit "0123456789abcdef") 0.

(** Modelled from the spec: [WordArray.toString()], which is not in the
    sources; "a lowercase hex digest", two digits per byte. *)
Definition Hex_stringify (b : bytes) : jsstring :=
  flat_map (fun x => [hexDigit (Z.shiftr x 4); hexDigit (Z.land x 0x0f)]) b.

End CryptoJS.

(** [calculateMD5Hash] of the options of [writeFlash]. *)
Definition calculateMD5Hash (image : jsstring) : jsstring :=
  CryptoJS.Hex_stringify (CryptoJS.MD5 (CryptoJS.Latin1_parse image)).

(** ** [parseInt]

    Leading white space, an optional sign, an optional [0x] prefix, then
    the longest run of digits; [None] is [NaN]. *)

Definition jsnum := option Z.

Definition digitValue (radix c : Z) : option Z :=
  let v :=
    if (48 <=? c) && (c <=? 57) then c - 48
    else if (97 <=? c) && (c <=? 122) then c - 87
    else if (65 <=? c) && (c <=? 90) then c - 55
    else radix in
  if v <? radix then Some v else None.

Fixpoint parseDigits (radix : Z) (acc : jsnum) (s : jsstring) : jsnum :=
  match s with
  | [] => acc
  | c :: s' =>
      match digitValue radix c with
      | Some v =>
          parseDigits radix
            (Some (match acc with Some a => a * radix + v | None => v end)) s'
      | None => acc
      end
  end.

Definition parseInt (s : jsstring) : jsnum :=
  let s := trimStart s in
  let '(sign, s) :=
    match s with
    | 45 :: s' => (-1, s')
    | 43 :: s' => (1, s')
    | _ => (1, s)
    end in
  let '(radix, s) :=
    match s with
    | 48 :: 120 :: s' => (16, s')
    | 48 :: 88 :: s' => (16, s')
    | _ => (10, s)
    end in
  option_map (Z.mul sign) (parseDigits radix None s).

(** ** Values of the browser and of the loader library *)

(** A [SerialPort] object; two references to one port carry one number. *)
Definition port := nat.

Inductive writer := Writer (p : port).
Inductive reader := Reader (p : port).

(** [new Transport(device, tracing)]. *)
Inductive transport := Transport (device : port) (tracing : bool).

Record LoaderOptions := {
  lo_transport : transport;
  lo_baudrate : jsnum;
  lo_debugLogging : bool;
  lo_romBaudrate : jsnum
}.

Inductive loader := ESPLoader (o : LoaderOptions).

Definition loaderDevice (l : loader) : port :=
  match l with
  | ESPLoader o => match lo_transport o with Transport d _ => d end
  end.

(** The options of [writeFlash].  [fo_reportProgress] is the number the
    callback hands to [setProgress]. *)
Record FlashOptions := {
  fo_fileArray : list (jsstring * Z);
  fo_flashSize : jsstring;
  fo_flashMode : jsstring;
  fo_flashFreq : jsstring;
  fo_eraseAll : bool;
  fo_compress : bool;
  fo_reportProgress : Z -> Z -> Z -> Q;
  fo_calculateMD5Hash : jsstring -> jsstring
}.

Inductive error :=
| Error (message : jsstring)
| TypeError
| SyntaxError.

(** A parsed JSON value. *)
Inductive json :=
| JNull
| JBool (b : bool)
| JNumber (q : Q)
| JString (s : jsstring)
| JArray (l : list json)
| JObject (l : list (jsstring * json)).

(** ** The environment

    Every promise of the browser or of the loader that the code awaits
    (reads apart) is a [call]; the environment settles it, knowing what
    happened so far. *)

Inductive call :=
| requestPort
| port_open (p : port) (baudRate : jsnum)
| port_close (p : port)
| reader_cancel (r : reader)
| writer_write (wr : writer) (data : bytes)
| writer_close (wr : writer)
| loader_main (l : loader)
| loader_eraseFlash (l : loader)
| loader_writeFlash (l : loader) (o : FlashOptions)
| loader_after (l : loader) (mode : jsstring)
| transport_disconnect (t : transport).

Definition ret (c : call) : Set :=
  match c with
  | requestPort => port
  | loader_main _ => jsstring
  | _ => unit
  end.

Inductive outcome (A : Type) :=
| Resolve (a : A)
| Reject (e : error).
Arguments Resolve {A} a.
Arguments Reject {A} e.

(** How one [reader.read()] settles, counted from the call: with a
    chunk, with the end of the stream, or with an error, [latency]
    milliseconds later. *)
Inductive read_reply :=
| chunk (latency : nat) (value : bytes)
| closed (latency : nat)
| failed (latency : nat) (e : error).

Definition latency (r : read_reply) : nat :=
  match r with
  | chunk l _ | closed l | failed l _ => l
  end.

Inductive read_outcome :=
| Got (value : bytes)
| Done
| Failed
| TimedOut.

(** What the session did to the outside, in order. *)
Inductive event :=
| Call (c : call)
| GetWriter (p : port)
| GetReader (p : port)
| ReleaseLock (r : reader)
| Sleep (ms : nat)
| Read (r : reader) (at_ms : nat) (o : read_outcome).

Record Env := {
  (** [navigator.serial], or the polyfill: present or not *)
  serialLib : bool;
  answer : list event -> forall c : call, outcome (ret c);
  (** the [(fileIndex, written, total)] reports of a [writeFlash] *)
  flashReports : list event -> list (Z * Z * Z);
  TextEncoder_encode : jsstring -> bytes;
  TextDecoder_decode : bytes -> jsstring;
  JSON_parse : jsstring -> option json;
  JSON_stringify : json -> option nat -> jsstring
}.

(** ** The state: [useState] values, [useRef] cells and the outside *)

Record World := mkWorld {
  baudrate : jsstring;
  isConnected : bool;
  chip : option jsstring;
  deviceRef : option port;
  transportRef : option transport;
  espLoaderRef : option loader;
  serialPortRef : option port;
  writerRef : option writer;
  readerRef : option reader;
  isErasing : bool;
  isProgramming : bool;
  progress : Q;
  preferences : jsstring;
  isLoadingPrefs : bool;
  isUpdatingPrefs : bool;
  env : Env;
  now : nat;
  incoming : list read_reply;
  openPorts : list port;
  trace : list event
}.

Definition set_isConnected (v : bool) (w : World) : World :=
  mkWorld
    (baudrate w) v (chip w) (deviceRef w) (transportRef w) (espLoaderRef w)
    (serialPortRef w) (writerRef w) (readerRef w) (isErasing w)
    (isProgramming w) (progress w) (preferences w) (isLoadingPrefs w)
    (isUpdatingPrefs w) (env w) (now w) (incoming w) (openPorts w)
    (trace w).
Definition set_chip (v : option jsstring) (w : World) : World :=
  mkWorld
    (baudrate w) (isConnected w) v (deviceRef w) (transportRef w)
    (espLoaderRef w) (serialPortRef w) (writerRef w) (readerRef w)
    (isErasing w) (isProgramming w) (progress w) (preferences w)
    (isLoadingPrefs w) (isUpdatingPrefs w) (env w) (now w) (incoming w)
    (openPorts w) (trace w).
Definition set_deviceRef (v : option port) (w : World) : World :=
  mkWorld
    (baudrate w) (isConnected w) (chip w) v (transportRef w)
    (espLoaderRef w) (serialPortRef w) (writerRef w) (readerRef w)
    (isErasing w) (isProgramming w) (progress w) (preferences w)
    (isLoadingPrefs w) (isUpdatingPrefs w) (env w) (now w) (incoming w)
    (openPorts w) (trace w).
Definition set_transportRef (v : option transport) (w : World) : World :=
  mkWorld
    (baudrate w) (isConnected w) (chip w) (deviceRef w) v (espLoaderRef w)
    (serialPortRef w) (writerRef w) (readerRef w) (isErasing w)
    (isProgramming w) (progress w) (preferences w) (isLoadingPrefs w)
    (isUpdatingPrefs w) (env w) (now w) (incoming w) (openPorts w)
    (trace w).
Definition set_espLoaderRef (v : option loader) (w : World) : World :=
  mkWorld
    (baudrate w) (isConnected w) (chip w) (deviceRef w) (transportRef w) v
    (serialPortRef w) (writerRef w) (readerRef w) (isErasing w)
    (isProgramming w) (progress w) (preferences w) (isLoadingPrefs w)
    (isUpdatingPrefs w) (env w) (now w) (incoming w) (openPorts w)
    (trace w).
Definition set_serialPortRef (v : option port) (w : World) : World :=
  mkWorld
    (baudrate w) (isConnected w) (chip w) (deviceRef w) (transportRef w)
    (espLoaderRef w) v (writerRef w) (readerRef w) (isErasing w)
    (isProgramming w) (progress w) (preferences w) (isLoadingPrefs w)
    (isUpdatingPrefs w) (env w) (now w) (incoming w) (openPorts w)
    (trace w).
Definition set_writerRef (v : option writer) (w : World) : World :=
  mkWorld
    (baudrate w) (isConnected w) (chip w) (deviceRef w) (transportRef w)
    (espLoaderRef w) (serialPortRef w) v (readerRef w) (isErasing w)
    (isProgramming w) (progress w) (preferences w) (isLoadingPrefs w)
    (isUpdatingPrefs w) (env w) (now w) (incoming w) (openPorts w)
    (trace w).
Definition set_readerRef (v : option reader) (w : World) : World :=
  mkWorld
    (baudrate w) (isConnected w) (chip w) (deviceRef w) (transportRef w)
    (espLoaderRef w) (serialPortRef w) (writerRef w) v (isErasing w)
    (isProgramming w) (progress w) (preferences w) (isLoadingPrefs w)
    (isUpdatingPrefs w) (env w) (now w) (incoming w) (openPorts w)
    (trace w).
Definition set_isErasing (v : bool) (w : World) : World :=
  mkWorld
    (baudrate w) (isConnected w) (chip w) (deviceRef w) (transportRef w)
    (espLoaderRef w) (serialPortRef w) (writerRef w) (readerRef w) v
    (isProgramming w) (progress w) (preferences w) (isLoadingPrefs w)
    (isUpdatingPrefs w) (env w) (now w) (incoming w) (openPorts w)
    (trace w).
Definition set_isProgramming (v : bool) (w : World) : World :=
  mkWorld
    (baudrate w) (isConnected w) (chip w) (deviceRef w) (transportRef w)
    (espLoaderRef w) (serialPortRef w) (writerRef w) (readerRef w)
    (isErasing w) v (progress w) (preferences w) (isLoadingPrefs w)
    (isUpdatingPrefs w) (env w) (now w) (incoming w) (openPorts w)
    (trace w).
Definition set_progress (v : Q) (w : World) : World :=
  mkWorld
    (baudrate w) (isConnected w) (chip w) (deviceRef w) (transportRef w)
    (espLoaderRef w) (serialPortRef w) (writerRef w) (readerRef w)
    (isErasing w) (isProgramming w) v (preferences w) (isLoadingPrefs w)
    (isUpdatingPrefs w) (env w) (now w) (incoming w) (openPorts w)
    (trace w).
Definition set_preferences (v : jsstring) (w : World) : World :=
  mkWorld
    (baudrate w) (isConnected w) (chip w) (deviceRef w) (transportRef w)
    (espLoaderRef w) (serialPortRef w) (writerRef w) (readerRef w)
    (isErasing w) (isProgramming w) (progress w) v (isLoadingPrefs w)
    (isUpdatingPrefs w) (env w) (now w) (incoming w) (openPorts w)
    (trace w).
Definition set_isLoadingPrefs (v : bool) (w : World) : World :=
  mkWorld
    (baudrate w) (isConnected w) (chip w) (deviceRef w) (transportRef w)
    (espLoaderRef w) (serialPortRef w) (writerRef w) (readerRef w)
    (isErasing w) (isProgramming w) (progress w) (preferences w) v
    (isUpdatingPrefs w) (env w) (now w) (incoming w) (openPorts w)
    (trace w).
Definition set_isUpdatingPrefs (v : bool) (w : World) : World :=
  mkWorld
    (baudrate w) (isConnected w) (chip w) (deviceRef w) (transportRef w)
    (espLoaderRef w) (serialPortRef w) (writerRef w) (readerRef w)
    (isErasing w) (isProgramming w) (progress w) (preferences w)
    (isLoadingPrefs w) v (env w) (now w) (incoming w) (openPorts w)
    (trace w).
Definition set_now (v : nat) (w : World) : World :=
  mkWorld
    (baudrate w) (isConnected w) (chip w) (deviceRef w) (transportRef w)
    (espLoaderRef w) (serialPortRef w) (writerRef w) (readerRef w)
    (isErasing w) (isProgramming w) (progress w) (preferences w)
    (isLoadingPrefs w) (isUpdatingPrefs w) (env w) v (incoming w)
    (openPorts w) (trace w).
Definition set_incoming (v : list read_reply) (w : World) : World :=
  mkWorld
    (baudrate w) (isConnected w) (chip w) (deviceRef w) (transportRef w)
    (espLoaderRef w) (serialPortRef w) (writerRef w) (readerRef w)
    (isErasing w) (isProgramming w) (progress w) (preferences w)
    (isLoadingPrefs w) (isUpdatingPrefs w) (env w) (now w) v (openPorts w)
    (trace w).
Definition set_openPorts (v : list port) (w : World) : World :=
  mkWorld
    (baudrate w) (isConnected w) (chip w) (deviceRef w) (transportRef w)
    (espLoaderRef w) (serialPortRef w) (writerRef w) (readerRef w)
    (isErasing w) (isProgramming w) (progress w) (preferences w)
    (isLoadingPrefs w) (isUpdatingPrefs w) (env w) (now w) (incoming w) v
    (trace w).
Definition set_trace (v : list event) (w : World) : World :=
  mkWorld
    (baudrate w) (isConnected w) (chip w) (deviceRef w) (transportRef w)
    (espLoaderRef w) (serialPortRef w) (writerRef w) (readerRef w)
    (isErasing w) (isProgramming w) (progress w) (preferences w)
    (isLoadingPrefs w) (isUpdatingPrefs w) (env w) (now w) (incoming w)
    (openPorts w) v.

(** ** Asynchronous functions

    An [async] function is a function of the state that returns a value
    or throws, and leaves a state. *)

Inductive Result (A : Type) :=
| Ok (a : A)
| Err (e : error).
Arguments Ok {A} a.
Arguments Err {A} e.

Definition M (A : Type) : Type := World -> Result A * World.

Definition pure {A} (a : A) : M A := fun w => (Ok a, w).
Definition throw {A} (e : error) : M A := fun w => (Err e, w).

Definition bind {A B} (m : M A) (k : A -> M B) : M B :=
  fun w =>
    match m w with
    | (Ok a, w1) => k a w1
    | (Err e, w1) => (Err e, w1)
    end.

Notation "x <- m ;; k" := (bind m (fun x => k))
  (at level 61, m at next level, right associativity).
Notation "m ;; k" := (bind m (fun _ => k))
  (at level 61, right associativity).

(** [try { body } finally { cleanup }], for a cleanup that cannot throw. *)
Definition tryFinally {A} (body : M A) (cleanup : World -> World) : M A :=
  fun w => let (r, w1) := body w in (r, cleanup w1).

(** [try { body } catch { handler }]. *)
Definition tryCatch {A} (body : M A) (handler : M A) : M A :=
  fun w =>
    match body w with
    | (Ok a, w1) => (Ok a, w1)
    | (Err _, w1) => handler w1
    end.

(** A step that only changes the state. *)
Definition modify (f : World -> World) : M unit := fun w => (Ok tt, f w).

Definition log (e : event) (w : World) : World :=
  set_trace (trace w ++ [e]) w.

(** What a call that resolved does to the ports: [open] opens and
    [close] closes; the loader's [main] opens the device through its
    transport and [Transport.disconnect] closes it.  A call that was
    rejected leaves the ports as they were. *)
Definition opens (c : call) (ports : list port) : list port :=
  match c with
  | port_open p _ => p :: ports
  | port_close p => remove Nat.eq_dec p ports
  | loader_main l => loaderDevice l :: ports
  | transport_disconnect (Transport d _) => remove Nat.eq_dec d ports
  | _ => ports
  end.

(** [await] on a call: the environment settles it.  The clock, which
    the code reads in [sendCommand] only and after its write, is moved
    by reads and timers. *)
Definition perform (c : call) : M (ret c) :=
  fun w =>
    match answer (env w) (trace w) c with
    | Resolve a => (Ok a, set_openPorts (opens c (openPorts w)) (log (Call c) w))
    | Reject e => (Err e, log (Call c) w)
    end.

(** [await new Promise((resolve) => setTimeout(resolve, ms))]. *)
Definition sleep (ms : nat) : M unit :=
  modify (fun w => log (Sleep ms) (set_now (now w + ms)%nat w)).

(** [port.readable] is not null exactly while the port is open. *)
Definition readable (p : port) (w : World) : bool :=
  existsb (Nat.eqb p) (openPorts w).

(** ** [useSerialConnection] *)

(** [getWriter] and [getReader] lock the streams of a port that has
    just been opened; they do not throw there. *)
Definition setupNativeSerial : M unit :=
  fun w =>
    (p <- (if serialLib (env w)
           then (p <- perform requestPort ;; pure (Some p))
           else pure None) ;;
     modify (set_serialPortRef p) ;;
     match p with
     | None => throw TypeError
     | Some p =>
         perform (port_open p (parseInt (baudrate w))) ;;
         modify (fun w => log (GetWriter p) (set_writerRef (Some (Writer p)) w)) ;;
         modify (fun w => log (GetReader p) (set_readerRef (Some (Reader p)) w)) ;;
         modify (set_deviceRef (Some p)) ;;
         modify (set_chip (Some (lit "Native Connection")))
     end) w.

Definition closeNativeSerial : M unit :=
  (fun w =>
     match readerRef w with
     | Some r =>
         (perform (reader_cancel r) ;;
          modify (log (ReleaseLock r)) ;;
          modify (set_readerRef None)) w
     | None => pure tt w
     end) ;;
  (fun w =>
     match writerRef w with
     | Some wr => (perform (writer_close wr) ;; modify (set_writerRef None)) w
     | None => pure tt w
     end) ;;
  (fun w =>
     match serialPortRef w with
     | Some p =>
         if readable p w
         then (perform (port_close p) ;; modify (set_serialPortRef None)) w
         else pure tt w
     | None => pure tt w
     end).

Definition setupESPTool : M jsstring :=
  fun w =>
    match deviceRef w with
    | None => throw (Error (lit "No device available")) w
    | Some d =>
        let t := Transport d true in
        let l := ESPLoader {| lo_transport := t;
                              lo_baudrate := parseInt (baudrate w);
                              lo_debugLogging := false;
                              lo_romBaudrate := parseInt (baudrate w) |} in
        (modify (set_transportRef (Some t)) ;;
         modify (set_espLoaderRef (Some l)) ;;
         detectedChip <- perform (loader_main l) ;;
         modify (set_chip (Some detectedChip)) ;;
         pure detectedChip) w
    end.

Definition cleanupESPTool : M unit :=
  (fun w =>
     match transportRef w with
     | Some t =>
         (perform (transport_disconnect t) ;; modify (set_transportRef None)) w
     | None => pure tt w
     end) ;;
  modify (set_espLoaderRef None).

Definition connect : M unit :=
  setupNativeSerial ;;
  modify (set_isConnected true).

Definition disconnect : M unit :=
  closeNativeSerial ;;
  cleanupESPTool ;;
  modify (set_isConnected false) ;;
  modify (set_chip None) ;;
  modify (set_deviceRef None).

(** *** [sendCommand] *)

(** What [Promise.race([readPromise, timeoutPromise])] resolves with. *)
Record ReadResult := { value : option bytes; done : bool }.

(** One [reader.read()] raced against the 1000 ms timer.  The read
    settles as the next entry of [incoming] says; an entry that takes
    1000 ms or more, or none at all, lets the timer reject first.  A read that
    lost the race still takes its entry off the stream: the abandoned
    promise is the one the stream resolves.  Timers fire on time. *)
Definition raceRead (rd : reader) : M ReadResult :=
  fun w =>
    let timedOut (w1 : World) : Result ReadResult * World :=
      (Err (Error (lit "Read timeout")),
       log (Read rd (now w) TimedOut) (set_now (now w + 1000)%nat w1)) in
    match incoming w with
    | [] => timedOut w
    | r :: rest =>
        let w1 := set_incoming rest w in
        if (latency r <? 1000)%nat then
          let w2 := set_now (now w + latency r)%nat w1 in
          match r with
          | chunk _ v =>
              (Ok {| value := Some v; done := false |},
               log (Read rd (now w) (Got v)) w2)
          | closed _ =>
              (Ok {| value := None; done := true |},
               log (Read rd (now w) Done) w2)
          | failed _ e => (Err e, log (Read rd (now w) Failed) w2)
          end
        else timedOut w1
    end.

Inductive flow := Break | Continue.

Definition END : jsstring := lit "END".
Definition ERROR : jsstring := lit "ERROR".

Definition hasMarker (response : jsstring) : bool :=
  includes response END || includes response ERROR.

(** The body of the [while] loop: the [try] block and its [catch]. *)
Definition readOnce (rd : reader) (response : jsstring) : M (flow * jsstring) :=
  tryCatch
    (result <- raceRead rd ;;
     fun w =>
       match value result with
       | Some v =>
           if (0 <? length v)%nat then
             let response := response ++ TextDecoder_decode (env w) v in
             if hasMarker response then pure (Break, response) w
             else if done result then pure (Break, response) w
             else pure (Continue, response) w
           else if done result then pure (Break, response) w
           else pure (Continue, response) w
       | None =>
           if done result then pure (Break, response) w
           else pure (Continue, response) w
       end)
    (sleep 100 ;; pure (Continue, response)).

Definition timeout : nat := 2000.

(** [while (Date.now() - startTime < timeout)]; [None] when the fuel is
    used up. *)
Fixpoint readLoop (fuel : nat) (rd : reader) (startTime : nat)
  (response : jsstring) (w : World) : option (Result jsstring * World) :=
  match fuel with
  | O => None
  | S fuel' =>
      if (now w - startTime <? timeout)%nat then
        match readOnce rd response w with
        | (Ok (Break, response), w1) => Some (Ok response, w1)
        | (Ok (Continue, response), w1) =>
            readLoop fuel' rd startTime response w1
        | (Err e, w1) => Some (Err e, w1)
        end
      else Some (Ok response, w)
  end.

(** Fuel that the loop never uses up: a turn takes an entry of
    [incoming] or 1100 ms of the budget. *)
Definition readFuel (w : World) : nat := (length (incoming w) + 3)%nat.

(** The loop is run with [readFuel]; it never comes back with [None]
    (see [readLoop_exchange] and [sendCommand_returns]). *)
Definition sendCommand (command : jsstring) : M jsstring :=
  fun w =>
    match writerRef w, readerRef w with
    | Some wr, Some rd =>
        (perform
           (writer_write wr (TextEncoder_encode (env w) (command ++ [10]))) ;;
         fun w1 =>
           let startTime := now w1 in
           match readLoop (readFuel w1) rd startTime [] w1 with
           | Some (Ok response, w2) => (Ok (trim response), w2)
           | Some (Err e, w2) => (Err e, w2)
           | None => (Ok [], w1)
           end) w
    | _, _ => throw (Error (lit "Native serial not connected")) w
    end.

(** ** [useFlashOperations] *)

(** [serial.espLoaderRef.current?.f()]. *)
Definition whenLoader (f : loader -> M unit) : M unit :=
  fun w =>
    match espLoaderRef w with
    | Some l => f l w
    | None => pure tt w
    end.

Definition eraseFlash : M unit :=
  modify (set_isErasing true) ;;
  tryFinally
    (closeNativeSerial ;;
     setupESPTool ;;
     whenLoader (fun l => perform (loader_eraseFlash l)) ;;
     cleanupESPTool ;;
     sleep 1000 ;;
     setupNativeSerial)
    (set_isErasing false).

Definition flashOptions (fileData : jsstring) : FlashOptions :=
  {| fo_fileArray := [(fileData, 0x10000)];
     fo_flashSize := lit "keep";
     fo_flashMode := lit "keep";
     fo_flashFreq := lit "keep";
     fo_eraseAll := false;
     fo_compress := true;
     fo_reportProgress :=
       fun _ written total => (inject_Z written / inject_Z total * 100)%Q;
     fo_calculateMD5Hash := calculateMD5Hash |}.

(** [writeFlash]: the loader reports progress while it writes, then the
    promise settles. *)
Definition reportAll (o : FlashOptions) (reports : list (Z * Z * Z))
  (w : World) : World :=
  fold_left
    (fun w1 '(i, written, total) =>
       set_progress (fo_reportProgress o i written total) w1)
    reports w.

Definition writeFlash (l : loader) (o : FlashOptions) : M unit :=
  fun w =>
    perform (loader_writeFlash l o)
      (reportAll o (flashReports (env w) (trace w)) w).

Definition programFlash (fileData : jsstring) : M unit :=
  modify (set_isProgramming true) ;;
  modify (set_progress 0%Q) ;;
  tryFinally
    (closeNativeSerial ;;
     setupESPTool ;;
     whenLoader (fun l => writeFlash l (flashOptions fileData)) ;;
     whenLoader (fun l => perform (loader_after l (lit "hard_reset"))) ;;
     cleanupESPTool ;;
     sleep 2000 ;;
     setupNativeSerial)
    (fun w => set_progress 0%Q (set_isProgramming false w)).

(** ** [usePreferences] *)

Definition getAllSettings : M unit :=
  modify (set_isLoadingPrefs true) ;;
  tryFinally
    (response <- sendCommand (lit "GET_ALL_PREFS") ;;
     if truthy response then
       fun w =>
         match JSON_parse (env w) response with
         | Some jsonData =>
             modify (set_preferences
                       (JSON_stringify (env w) jsonData (Some 2%nat))) w
         | None => modify (set_preferences response) w
         end
     else throw (Error (lit "No response received from device")))
    (set_isLoadingPrefs false).

Definition updateAllSettings : M jsstring :=
  fun w =>
    if negb (truthy (trim (preferences w)))
    then throw (Error (lit "No preferences data!")) w
    else
      (modify (set_isUpdatingPrefs true) ;;
       tryFinally
         (match JSON_parse (env w) (preferences w) with
          | None => throw SyntaxError
          | Some prefsData =>
              response <- sendCommand
                (lit "SET_ALL_PREFS:" ++ JSON_stringify (env w) prefsData None) ;;
              if includes response (lit "ERROR")
              then throw (Error (lit "Update failed: " ++ response))
              else pure (lit "Response: " ++ response)
          end)
         (set_isUpdatingPrefs false)) w.

(** ** The session as the specification names it

    The hooks keep no mode variable.  The mode is read off the state:
    the page shows the connected controls while [isConnected] holds, and
    the session is in the bootloader while a loader or its transport is
    attached. *)

Inductive SessionMode := Disconnected | Native | Bootloader.

Definition isSome {A} (o : option A) : bool :=
  match o with Some _ => true | None => false end.

(** The Programmer Adapter: the ESP loader or its transport. *)
Definition programmerAdapter (w : World) : bool :=
  isSome (espLoaderRef w) || isSome (transportRef w).

(** The Transport Handle: the serial port with its reader and writer. *)
Definition transportHandle (w : World) : bool :=
  isSome (serialPortRef w) && isSome (readerRef w) && isSome (writerRef w).

(** No part of the Transport Handle is left. *)
Definition noTransport (w : World) : bool :=
  negb (isSome (serialPortRef w) || isSome (readerRef w) || isSome (writerRef w)).

Definition sessionMode (w : World) : SessionMode :=
  if negb (isConnected w) then Disconnected
  else if programmerAdapter w then Bootloader
  else Native.

(** What holds of the session in every state the operations lead to:
    the session is connected exactly while it holds its device, and an
    adapter is attached to a connected session only. *)
Definition sessionInvariant (w : World) : bool :=
  Bool.eqb (isSome (deviceRef w)) (isConnected w) &&
  implb (programmerAdapter w) (isConnected w).

(** The operations a user can start, and the states they lead to. *)
Inductive operation :=
| opConnect
| opDisconnect
| opEraseFlash
| opProgramFlash (fileData : jsstring)
| opSendCommand (command : jsstring)
| opGetAllSettings
| opUpdateAllSettings
| opSetPreferences (text : jsstring).

Definition void {A} (m : M A) : M unit := m ;; pure tt.

Definition exec (o : operation) : M unit :=
  match o with
  | opConnect => connect
  | opDisconnect => disconnect
  | opEraseFlash => eraseFlash
  | opProgramFlash fileData => programFlash fileData
  | opSendCommand command => void (sendCommand command)
  | opGetAllSettings => getAllSettings
  | opUpdateAllSettings => void updateAllSettings
  | opSetPreferences text => modify (set_preferences text)
  end.

(** The operations that change the session: connect, disconnect, erase
    and program. *)
Definition sessionOperation (o : operation) : bool :=
  match o with
  | opConnect | opDisconnect | opEraseFlash | opProgramFlash _ => true
  | _ => false
  end.

Definition succeeds (o : operation) (w : World) : bool :=
  match fst (exec o w) with Ok _ => true | Err _ => false end.

(** The state of a freshly loaded page. *)
Definition initialWorld (baud : jsstring) (e : Env) (inbox : list read_reply)
  : World :=
  {| baudrate := baud; isConnected := false; chip := None;
     deviceRef := None; transportRef := None; espLoaderRef := None;
     serialPortRef := None; writerRef := None; readerRef := None;
     isErasing := false; isProgramming := false; progress := 0%Q;
     preferences := []; isLoadingPrefs := false; isUpdatingPrefs := false;
     env := e; now := 0; incoming := inbox; openPorts := []; trace := [] |}.

Inductive reachable : World -> Prop :=
| reach_initial baud e inbox : reachable (initialWorld baud e inbox)
| reach_step o w : reachable w -> reachable (snd (exec o w)).

(** ** Reading a trace *)

(** The chunks a run of [sendCommand] added to its response. *)
Fixpoint received (evs : list event) : list bytes :=
  match evs with
  | [] => []
  | Read _ _ (Got v) :: evs' =>
      if (0 <? length v)%nat then v :: received evs' else received evs'
  | _ :: evs' => received evs'
  end.

Definition responseOf (decode : bytes -> jsstring) (evs : list event)
  : jsstring :=
  concat (map decode (received evs)).

(** Every read starts before [timeout] ms have gone by since [startTime]
    and while the response gathered so far holds neither marker. *)
Fixpoint readsInBudget (decode : bytes -> jsstring) (startTime : nat)
  (response : jsstring) (evs : list event) : Prop :=
  match evs with
  | [] => True
  | Read r t o :: evs' =>
      (t - startTime < timeout)%nat /\ hasMarker response = false /\
      readsInBudget decode startTime
        (response ++ responseOf decode [Read r t o]) evs'
  | _ :: evs' => readsInBudget decode startTime response evs'
  end.

(** The events of the read loop: reads of [rd] and 100 ms back-offs. *)
Definition readOrBackoff (rd : reader) (e : event) : Prop :=
  match e with
  | Read r _ _ => r = rd
  | Sleep ms => ms = 100%nat
  | _ => False
  end.

(** The last read found the stream closed. *)
Definition streamEnded (evs : list event) : Prop :=
  exists evs' r t, evs = evs' ++ [Read r t Done].

(** A read that timed out or failed is followed by the back-off. *)
Fixpoint backoffAfterFailure (evs : list event) : Prop :=
  match evs with
  | [] => True
  | Read _ _ TimedOut :: evs' | Read _ _ Failed :: evs' =>
      (exists evs'', evs' = Sleep 100 :: evs'') /\ backoffAfterFailure evs'
  | _ :: evs' => backoffAfterFailure evs'
  end.

(** The operation stopped at a call that the environment rejected with
    [e]: that call, which satisfies [Q], is the last thing it did. *)
Definition stoppedAt (w w' : World) (e : error) (Q : call -> Prop) : Prop :=
  exists tr c,
    trace w' = tr ++ [Call c] /\
    answer (env w) tr c = Reject e /\
    (exists evs, tr = trace w ++ evs) /\ Q c.

(** Nothing was done to the outside. *)
Definition untouched (w w' : World) : Prop :=
  trace w' = trace w /\ incoming w' = incoming w /\ now w' = now w /\
  openPorts w' = openPorts w /\
  serialPortRef w' = serialPortRef w /\ writerRef w' = writerRef w /\
  readerRef w' = readerRef w /\ deviceRef w' = deviceRef w /\
  transportRef w' = transportRef w /\ espLoaderRef w' = espLoaderRef w.

Definition noDevice : error := Error (lit "No device available").
Definition noResponse : error :=
  Error (lit "No response received from device").

(** The calls on the programmer adapter that come before its release. *)
Definition adapterStep (c : call) : bool :=
  match c with
  | loader_main _ | loader_eraseFlash _ => true
  | _ => false
  end.

(** The hooks' own state is as it was: only the clock, the stream and
    the trace may differ. *)
Definition undisturbed (w w' : World) : Prop :=
  baudrate w' = baudrate w /\ env w' = env w /\
  isConnected w' = isConnected w /\ chip w' = chip w /\
  deviceRef w' = deviceRef w /\ transportRef w' = transportRef w /\
  espLoaderRef w' = espLoaderRef w /\ serialPortRef w' = serialPortRef w /\
  writerRef w' = writerRef w /\ readerRef w' = readerRef w /\
  isErasing w' = isErasing w /\ isProgramming w' = isProgramming w /\
  progress w' = progress w /\ preferences w' = preferences w /\
  isLoadingPrefs w' = isLoadingPrefs w /\
  isUpdatingPrefs w' = isUpdatingPrefs w /\ openPorts w' = openPorts w.

(** The read loop between its first test and its exit: what it logged,
    what it gathered and when it stopped. *)
Definition exchange (rd : reader) (startTime : nat) (response : jsstring)
  (w : World) (response' : jsstring) (w' : World) : Prop :=
  exists evs,
    trace w' = trace w ++ evs /\
    response' = response ++ responseOf (TextDecoder_decode (env w)) evs /\
    Forall (readOrBackoff rd) evs /\
    readsInBudget (TextDecoder_decode (env w)) startTime response evs /\
    backoffAfterFailure evs /\
    (hasMarker response' = true \/ (timeout <= now w' - startTime)%nat \/
     streamEnded evs) /\
    (now w' <= Nat.max (now w) (startTime + 3099))%nat /\
    undisturbed w w'.

(** Turns of the loop that a silent device can still cost: each takes
    1100 ms. *)
Definition budgetTurns (elapsed : nat) : nat :=
  if (elapsed <? 900)%nat then 2
  else if (elapsed <? timeout)%nat then 1 else 0.

Definition lowerHex (c : Z) : bool :=
  ((48 <=? c) && (c <=? 57)) || ((97 <=? c) && (c <=? 102)).

(** The baud rates the page offers. *)
Definition baudRates : list Z := [921600; 460800; 230400; 115200].
Definition baudOptions : list jsstring :=
  [lit "921600"; lit "460800"; lit "230400"; lit "115200"].

(** ** Environments for the examples *)

(** Every call resolves; the port picker hands out port 1 and the loader
    detects an ESP32-S3. *)
Definition resolves (c : call) : outcome (ret c) :=
  match c return outcome (ret c) with
  | requestPort => Resolve 1%nat
  | port_open _ _ => Resolve tt
  | port_close _ => Resolve tt
  | reader_cancel _ => Resolve tt
  | writer_write _ _ => Resolve tt
  | writer_close _ => Resolve tt
  | loader_main _ => Resolve (lit "ESP32-S3")
  | loader_eraseFlash _ => Resolve tt
  | loader_writeFlash _ _ => Resolve tt
  | loader_after _ _ => Resolve tt
  | transport_disconnect _ => Resolve tt
  end.

(** The calls picked out by [bad] are rejected, the others resolve. *)
Definition rejecting (bad : call -> bool) (_ : list event) (c : call)
  : outcome (ret c) :=
  if bad c then Reject (Error (lit "device lost")) else resolves c.

Definition isEraseFlash (c : call) : bool :=
  match c with loader_eraseFlash _ => true | _ => false end.

Definition isWriterClose (c : call) : bool :=
  match c with writer_close _ => true | _ => false end.

(** A stand-in for [JSON.parse] that knows the literals [null], [true]
    and [false], and rejects every other text. *)
Definition literalJSON_parse (s : jsstring) : option json :=
  let s := trim s in
  if startsWith s (lit "null") && startsWith (lit "null") s then Some JNull
  else if startsWith s (lit "true") && startsWith (lit "true") s
       then Some (JBool true)
  else if startsWith s (lit "false") && startsWith (lit "false") s
       then Some (JBool false)
  else None.

Definition literalJSON_stringify (j : json) (_ : option nat) : jsstring :=
  match j with
  | JBool true => lit "true"
  | JBool false => lit "false"
  | _ => lit "null"
  end.

(** A browser whose text is ASCII, so that encoding and decoding leave
    the code units as they are. *)
Definition testEnv (bad : call -> bool) : Env :=
  {| serialLib := true;
     answer := rejecting bad;
     flashReports := fun _ => [(0, 1024, 2048); (0, 2048, 2048)];
     TextEncoder_encode := fun s => s;
     TextDecoder_decode := fun b => b;
     JSON_parse := literalJSON_parse;
     JSON_stringify := literalJSON_stringify |}.

Definition PING : jsstring := lit "PING".

(** A page connected at 115200 baud to a device that sends [inbox]. *)
Definition connectedWorld (bad : call -> bool) (inbox : list read_reply)
  : World :=
  snd (connect (initialWorld (lit "115200") (testEnv bad) inbox)).

(** No call is rejected. *)
Definition cooperative (_ : call) : bool := false.

(** Connected to a device that never answers. *)
Definition silentWorld : World := connectedWorld cooperative [].

(** Connected to a device whose stream ends 5 ms after the command. *)
Definition closedWorld : World := connectedWorld cooperative [closed 5].

(** Connected to a device that answers in pieces, one of them late. *)
Definition chattyWorld : World :=
  connectedWorld cooperative
    [chunk 5 (lit "  OK"); chunk 1500 (lit "lost"); chunk 3 (lit " END  ");
     chunk 1 (lit "more")].

(** The command as it goes to the port: its text and a line feed. *)
Definition commandLine (command : jsstring) (w : World) (wr : writer) : call :=
  writer_write wr (TextEncoder_encode (env w) (command ++ [10])).

(** Connected, with a preferences text that is not JSON. *)
Definition malformedWorld : World :=
  set_preferences (lit "{bad") (connectedWorld cooperative []).

(** The state after a failed erase: reached by a connect that succeeded
    and an erase whose adapter step was rejected. *)
Definition strandedWorld : World :=
  snd (exec opEraseFlash
         (snd (exec opConnect
                 (initialWorld (lit "115200") (testEnv isEraseFlash) [])))).

(** ** The choreography of the flash operations *)

Definition notConnected : error := Error (lit "Native serial not connected").

Definition nativeConnection : jsstring := lit "Native Connection".

(** The loader that [setupESPTool] builds over the device [d]. *)
Definition espTransport (d : port) : transport := Transport d true.

Definition espLoader (w : World) (d : port) : loader :=
  ESPLoader {| lo_transport := espTransport d;
               lo_baudrate := parseInt (baudrate w);
               lo_debugLogging := false;
               lo_romBaudrate := parseInt (baudrate w) |}.

(** The events of [closeNativeSerial]. *)
Definition isRelease (e : event) : bool :=
  match e with
  | Call (reader_cancel _) | ReleaseLock _
  | Call (writer_close _) | Call (port_close _) => true
  | _ => false
  end.

(** The events of [setupNativeSerial] when it succeeds with port [p]. *)
Definition nativeSteps (w : World) (p : port) : list event :=
  [Call requestPort; Call (port_open p (parseInt (baudrate w)));
   GetWriter p; GetReader p].

(** What a successful erase does once the native serial is closed. *)
Definition eraseSteps (w : World) (d p : port) : list event :=
  [Call (loader_main (espLoader w d));
   Call (loader_eraseFlash (espLoader w d));
   Call (transport_disconnect (espTransport d));
   Sleep 1000] ++ nativeSteps w p.

(** What a successful program does once the native serial is closed. *)
Definition programSteps (fileData : jsstring) (w : World) (d p : port)
  : list event :=
  [Call (loader_main (espLoader w d));
   Call (loader_writeFlash (espLoader w d) (flashOptions fileData));
   Call (loader_after (espLoader w d) (lit "hard_reset"));
   Call (transport_disconnect (espTransport d));
   Sleep 2000] ++ nativeSteps w p.

(** The state a flash operation leaves when it succeeds: the native
    serial is open again on the port [p] just granted. *)
Definition backInNative (w w' : World) (p : port) : Prop :=
  serialPortRef w' = Some p /\ readerRef w' = Some (Reader p) /\
  writerRef w' = Some (Writer p) /\ deviceRef w' = Some p /\
  chip w' = Some nativeConnection /\
  transportRef w' = None /\ espLoaderRef w' = None /\
  isConnected w' = isConnected w /\ readable p w' = true.

(** The operation only released native resources, and then failed or
    gave up: no adapter was built. *)
Definition onlyReleased (w w' : World) : Prop :=
  exists pre,
    trace w' = trace w ++ pre /\ forallb isRelease pre = true /\
    transportRef w' = transportRef w /\ espLoaderRef w' = espLoaderRef w /\
    chip w' = chip w /\ deviceRef w' = deviceRef w.

(** The calls of a program on the programmer adapter that come before
    its release. *)
Definition programStep (c : call) : bool :=
  match c with
  | loader_main _ | loader_writeFlash _ _ | loader_after _ _ => true
  | _ => false
  end.

(** The calls of [setupNativeSerial]. *)
Definition nativeStep (c : call) : bool :=
  match c with
  | requestPort | port_open _ _ => true
  | _ => false
  end.

(** A page that was never connected. *)
Definition freshWorld : World :=
  initialWorld (lit "115200") (testEnv cooperative) [].

(** Nothing of the native serial is left to release, and no device is
    held: the state a disconnect leaves. *)
Definition released (w : World) : Prop :=
  readerRef w = None /\ writerRef w = None /\ deviceRef w = None /\
  match serialPortRef w with
  | Some p => readable p w = false
  | None => True
  end.

(** ** Reading a response *)

Definition startsWithSpace (s : jsstring) : bool :=
  match s with
  | c :: _ => isWhiteSpace c
  | [] => false
  end.

Definition endsWithSpace (s : jsstring) : bool := startsWithSpace (rev s).

(** ** Updating the settings *)

(** The command that [updateAllSettings] sends. *)
Definition setAllPrefs (w : World) (prefsData : json) : jsstring :=
  lit "SET_ALL_PREFS:" ++ JSON_stringify (env w) prefsData None.

Definition noPreferences : error := Error (lit "No preferences data!").

Definition updateFailed (response : jsstring) : error :=
  Error (lit "Update failed: " ++ response).

(** ** Progress *)

(** A report of the loader: some of the bytes of a file that is not
    empty. *)
Definition partOfFile (report : Z * Z * Z) : Prop :=
  let '(_, written, total) := report in 0 <= written <= total /\ 0 < total.

Definition percent (q : Q) : Prop := (0 <= q <= 100)%Q.

(** Connected to a device that answers at once, and sends more. *)
Definition promptWorld : World :=
  connectedWorld cooperative [chunk 5 (lit "OK END "); chunk 1 (lit "more")].

(** ** The page: [useFirmwareLoader], [useErrorHandler] and [App]

    The hooks above are the [World] of the page.  What the page adds is
    the alert, the firmware chosen and loaded, and what [fetch] did. *)

(** A [Response] of [fetch]. *)
Record Response := {
  ok : bool;
  status : Z;
  statusText : jsstring;
  arrayBuffer : outcome bytes
}.

(** What the page takes from the browser besides the serial port:
    [fetch], settled knowing the paths fetched so far, and the messages
    of the errors that the engine itself throws. *)
Record Platform := {
  fetch : list jsstring -> jsstring -> outcome Response;
  typeErrorMessage : jsstring;
  syntaxErrorMessage : jsstring
}.

Record Page := mkPage {
  world : World;
  alert : jsstring;
  selectedVersion : jsstring;
  firmwareData : option jsstring;
  isLoadingFirmware : bool;
  platform : Platform;
  fetched : list jsstring;
  console : list error
}.

Definition set_world (v : World) (pg : Page) : Page :=
  mkPage v (alert pg) (selectedVersion pg) (firmwareData pg)
    (isLoadingFirmware pg) (platform pg) (fetched pg) (console pg).
Definition set_alert (v : jsstring) (pg : Page) : Page :=
  mkPage (world pg) v (selectedVersion pg) (firmwareData pg)
    (isLoadingFirmware pg) (platform pg) (fetched pg) (console pg).
Definition set_selectedVersion (v : jsstring) (pg : Page) : Page :=
  mkPage (world pg) (alert pg) v (firmwareData pg)
    (isLoadingFirmware pg) (platform pg) (fetched pg) (console pg).
Definition set_firmwareData (v : option jsstring) (pg : Page) : Page :=
  mkPage (world pg) (alert pg) (selectedVersion pg) v
    (isLoadingFirmware pg) (platform pg) (fetched pg) (console pg).
Definition set_isLoadingFirmware (v : bool) (pg : Page) : Page :=
  mkPage (world pg) (alert pg) (selectedVersion pg) (firmwareData pg)
    v (platform pg) (fetched pg) (console pg).
Definition set_fetched (v : list jsstring) (pg : Page) : Page :=
  mkPage (world pg) (alert pg) (selectedVersion pg) (firmwareData pg)
    (isLoadingFirmware pg) (platform pg) v (console pg).
Definition set_console (v : list error) (pg : Page) : Page :=
  mkPage (world pg) (alert pg) (selectedVersion pg) (firmwareData pg)
    (isLoadingFirmware pg) (platform pg) (fetched pg) v.

(** An [async] function of the page. *)
Definition PageM (A : Type) : Type := Page -> Result A * Page.

Definition pagePure {A} (a : A) : PageM A := fun pg => (Ok a, pg).
Definition pageThrow {A} (e : error) : PageM A := fun pg => (Err e, pg).

Definition pageBind {A B} (m : PageM A) (k : A -> PageM B) : PageM B :=
  fun pg =>
    match m pg with
    | (Ok a, pg1) => k a pg1
    | (Err e, pg1) => (Err e, pg1)
    end.

Notation "x <- m ;;; k" := (pageBind m (fun x => k))
  (at level 61, m at next level, right associativity).
Notation "m ;;; k" := (pageBind m (fun _ => k))
  (at level 61, right associativity).

Definition pageFinally {A} (body : PageM A) (cleanup : Page -> Page) : PageM A :=
  fun pg => let (r, pg1) := body pg in (r, cleanup pg1).

(** [try { body } catch (e) { handler(e) }]. *)
Definition pageCatch {A} (body : PageM A) (handler : error -> PageM A)
  : PageM A :=
  fun pg =>
    match body pg with
    | (Ok a, pg1) => (Ok a, pg1)
    | (Err e, pg1) => handler e pg1
    end.

Definition update (f : Page -> Page) : PageM unit := fun pg => (Ok tt, f pg).

(** An [async] function of the hooks, run on the page. *)
Definition onWorld {A} (m : M A) : PageM A :=
  fun pg => let (r, w) := m (world pg) in (r, set_world w pg).

(** [await] on a promise that settles as [o] says. *)
Definition await {A} (o : outcome A) : PageM A :=
  fun pg =>
    match o with
    | Resolve a => (Ok a, pg)
    | Reject e => (Err e, pg)
    end.

(** *** [useErrorHandler] *)

(** [error.message]. *)
Definition messageOf (pf : Platform) (e : error) : jsstring :=
  match e with
  | Error message => message
  | TypeError => typeErrorMessage pf
  | SyntaxError => syntaxErrorMessage pf
  end.

Definition invalidJSON : jsstring := lit "Invalid JSON format in preferences".

Definition handleError (e : error) (context : jsstring) (pg : Page) : Page :=
  let pg1 := set_console (console pg ++ [e]) pg in
  let message :=
    if includes (messageOf (platform pg) e) (lit "JSON")
    then invalidJSON
    else context ++ lit ": " ++ messageOf (platform pg) e in
  set_alert message pg1.

Definition clearAlert (pg : Page) : Page := set_alert [] pg.

(** *** [useFirmwareLoader] *)

(** A number in a template literal: a status code, in decimal. *)
Definition showNumber (n : Z) : jsstring :=
  lit (NilZero.string_of_int (Z.to_int n)).

Definition firmwarePath (version : jsstring) : jsstring :=
  lit "./firmwares/" ++ version ++ lit "/dashboard-lilygo-t-displays3.bin".

(** [new Uint8Array(arrayBuffer)]: the bytes of the buffer. *)
Definition Uint8Array (arrayBuffer : bytes) : list Z :=
  map (fun b => b mod 256) arrayBuffer.

(** [String.fromCharCode] of one number: its low 16 bits. *)
Definition fromCharCode (c : Z) : Z := c mod 65536.

(** The [for] loop that appends one character for every byte. *)
Definition binaryString (uint8Array : list Z) : jsstring :=
  fold_left (fun s b => s ++ [fromCharCode b]) uint8Array [].

Definition doFetch (path : jsstring) : PageM Response :=
  fun pg =>
    await (fetch (platform pg) (fetched pg) path)
      (set_fetched (fetched pg ++ [path]) pg).

Definition noVersion : error := Error (lit "No version selected").

Definition loadFailed (response : Response) : error :=
  Error (lit "Failed to load firmware: " ++ showNumber (status response)
         ++ lit " " ++ statusText response).

Definition loadFirmware (version : jsstring) : PageM jsstring :=
  if negb (truthy version) then pageThrow noVersion
  else
    update (set_isLoadingFirmware true) ;;;
    pageFinally
      (response <- doFetch (firmwarePath version) ;;;
       if negb (ok response) then pageThrow (loadFailed response)
       else
         buffer <- await (arrayBuffer response) ;;;
         update (set_firmwareData (Some (binaryString (Uint8Array buffer)))) ;;;
         pagePure (binaryString (Uint8Array buffer)))
      (set_isLoadingFirmware false).

Definition handleVersionChange (version : jsstring) : PageM unit :=
  update (set_selectedVersion version) ;;;
  update (set_firmwareData None) ;;;
  if truthy version
  then loadFirmware version ;;; pagePure tt
  else pagePure tt.

(** *** [App] *)

Definition setPreferences (text : jsstring) (pg : Page) : Page :=
  set_world (set_preferences text (world pg)) pg.

Definition handleConnect : PageM unit :=
  pageCatch (onWorld connect)
    (fun e => update (handleError e (lit "Connection failed"))).

Definition handleDisconnect : PageM unit :=
  onWorld disconnect ;;;
  update clearAlert ;;;
  update (setPreferences []).

Definition handleEraseFlash : PageM unit :=
  pageCatch (onWorld eraseFlash)
    (fun e => update (handleError e (lit "Erase failed"))).

Definition noFirmware : error :=
  Error (lit "No firmware loaded! Please select a version first.").

Definition programmed : jsstring := lit "Programming completed successfully!".

(** [!firmware.firmwareData] holds for [null] and for the empty string. *)
Definition handleProgram : PageM unit :=
  fun pg =>
    match firmwareData pg with
    | Some (c :: s) =>
        pageCatch
          (update clearAlert ;;;
           onWorld (programFlash (c :: s)) ;;;
           update (set_alert programmed))
          (fun e => update (handleError e (lit "Programming failed"))) pg
    | _ => update (handleError noFirmware (lit "Programming failed")) pg
    end.

Definition handleGetAllSettings : PageM unit :=
  pageCatch
    (update clearAlert ;;;
     onWorld getAllSettings)
    (fun e => update (handleError e (lit "Error getting settings"))).

Definition handleUpdateAllSettings : PageM unit :=
  pageCatch
    (update clearAlert ;;;
     result <- onWorld updateAllSettings ;;;
     update (set_alert result))
    (fun e => update (handleError e (lit "Error updating settings"))).

(** [version] is the value of the select that the event comes from. *)
Definition handleVersionSelect (version : jsstring) : PageM unit :=
  pageCatch
    (update clearAlert ;;;
     handleVersionChange version)
    (fun e => update (handleError e (lit "Failed to load firmware"))).

(** The [onClick] of the PING button. *)
Definition pingClick : PageM unit :=
  response <- onWorld (sendCommand (lit "PING")) ;;;
  update (setPreferences response).

(** The page as it is loaded. *)
Definition initialPage (w : World) (pf : Platform) : Page :=
  {| world := w; alert := []; selectedVersion := []; firmwareData := None;
     isLoadingFirmware := false; platform := pf; fetched := [];
     console := [] |}.

(** ** A platform for the examples *)

(** The server has version 1.0.0 only, a file of three bytes. *)
Definition testFetch (_ : list jsstring) (path : jsstring) : outcome Response :=
  if startsWith path (firmwarePath (lit "1.0.0"))
  then Resolve {| ok := true; status := 200; statusText := lit "OK";
                  arrayBuffer := Resolve [0; 128; 255] |}
  else Resolve {| ok := false; status := 404; statusText := lit "Not Found";
                  arrayBuffer := Resolve [] |}.

Definition testPlatform : Platform :=
  {| fetch := testFetch;
     typeErrorMessage :=
       lit "Cannot read properties of undefined (reading 'requestPort')";
     syntaxErrorMessage := lit "Unexpected token 'b', is not valid JSON" |}.

(** The page just loaded, and the page with an image loaded. *)
Definition freshPage : Page := initialPage freshWorld testPlatform.

Definition loadedPage : Page :=
  set_firmwareData (Some (lit "image")) (initialPage silentWorld testPlatform).

(** Connected, with a preferences text that is not JSON. *)
Definition malformedPage : Page := initialPage malformedWorld testPlatform.

(** Connected to a device that rejects the settings, naming JSON. *)
Definition rejectedPage : Page :=
  initialPage
    (set_preferences (lit "true")
       (connectedWorld cooperative [chunk 5 (lit "ERROR: bad JSON")]))
    testPlatform.

(** * Theorems *)

(** Functions that the proofs keep folded. *)
Arguments parseInt : simpl never.
Arguments lit : simpl never.
Arguments remove : simpl never.
Arguments existsb : simpl never.
Arguments hasMarker : simpl never.
Arguments trim : simpl never.
Arguments includes : simpl never.
Arguments Nat.ltb : simpl never.

(** ** The checksum callback *)

Example md5_rfc1321_empty :
  calculateMD5Hash (lit "") = lit "d41d8cd98f00b204e9800998ecf8427e".
Proof. vm_compute. reflexivity. Qed.

Example md5_rfc1321_abc :
  calculateMD5Hash (lit "abc") = lit "900150983cd24fb0d6963f7d28e17f72".
Proof. vm_compute. reflexivity. Qed.

Example md5_rfc1321_message_digest :
  calculateMD5Hash (lit "message digest")
  = lit "f96b697d7cb7938d525a2f31aaf161d0".
Proof. vm_compute. reflexivity. Qed.

(** Eighty characters: two blocks after padding. *)
Example md5_rfc1321_digits :
  calculateMD5Hash
    (lit "12345678901234567890123456789012345678901234567890123456789012345678901234567890")
  = lit "57edf4a22be3c955ac49da2e2107b67a".
Proof. vm_compute. reflexivity. Qed.

(** A code unit above 255 counts by its low byte only. *)
Example md5_low_byte_only :
  calculateMD5Hash [0x161; 0x262; 0x363] = calculateMD5Hash (lit "abc").
Proof. vm_compute. reflexivity. Qed.

Lemma land_byte_range x : 0 <= Z.land x 0xff < 256.
Proof.
  change 0xff with (Z.ones 8). rewrite Z.land_ones by lia.
  change (2 ^ 8) with 256. apply Z.mod_pos_bound. lia.
Qed.

Lemma le32_bytes x : Forall (fun b => 0 <= b < 256) (CryptoJS.le32 x).
Proof. unfold CryptoJS.le32. repeat constructor; apply land_byte_range. Qed.

Lemma MD5_length msg : length (CryptoJS.MD5 msg) = 16%nat.
Proof. unfold CryptoJS.MD5. cbv zeta. rewrite !length_app. reflexivity. Qed.

Lemma MD5_bytes msg : Forall (fun b => 0 <= b < 256) (CryptoJS.MD5 msg).
Proof.
  unfold CryptoJS.MD5. cbv zeta.
  repeat (apply Forall_app; split); apply le32_bytes.
Qed.

Lemma hexDigit_lower n : 0 <= n < 16 -> lowerHex (CryptoJS.hexDigit n) = true.
Proof.
  intros H.
  assert (E : exists k, (k < 16)%nat /\ n = Z.of_nat k)
    by (exists (Z.to_nat n); lia).
  destruct E as (k & Hk & ->).
  do 16 (destruct k as [|k]; [reflexivity|]). lia.
Qed.

Lemma Hex_stringify_length b :
  length (CryptoJS.Hex_stringify b) = (2 * length b)%nat.
Proof.
  unfold CryptoJS.Hex_stringify.
  induction b as [|x b IH]; simpl; [reflexivity | rewrite IH; lia].
Qed.

Lemma Hex_stringify_lower b :
  Forall (fun x => 0 <= x < 256) b ->
  forallb lowerHex (CryptoJS.Hex_stringify b) = true.
Proof.
  unfold CryptoJS.Hex_stringify.
  induction 1 as [|x b Hx _ IH]; simpl; [reflexivity|].
  rewrite IH, !hexDigit_lower; [reflexivity | |].
  - change 0x0f with (Z.ones 4). rewrite Z.land_ones by lia.
    change (2 ^ 4) with 16. apply Z.mod_pos_bound. lia.
  - rewrite Z.shiftr_div_pow2 by lia. change (2 ^ 4) with 16.
    split; [apply Z.div_pos; lia | apply Z.div_lt_upper_bound; lia].
Qed.

Lemma Latin1_parse_low_bytes image :
  CryptoJS.Latin1_parse (map (fun c => Z.land c 0xff) image)
  = CryptoJS.Latin1_parse image.
Proof.
  unfold CryptoJS.Latin1_parse. rewrite map_map. apply map_ext.
  intros c. rewrite <- Z.land_assoc. reflexivity.
Qed.

(** C7: the checksum function handed to [writeFlash] is, for every
    image, the MD5 digest of the image's code units taken as Latin-1
    bytes, written as 32 lowercase hexadecimal digits; it is a function
    of those bytes alone. *)
Theorem calculateMD5Hash_md5_hex (fileData image : jsstring) :
  let digest := fo_calculateMD5Hash (flashOptions fileData) image in
  digest = CryptoJS.Hex_stringify (CryptoJS.MD5 (CryptoJS.Latin1_parse image))
  /\ length digest = 32%nat
  /\ forallb lowerHex digest = true
  /\ digest = fo_calculateMD5Hash (flashOptions fileData)
                (map (fun c => Z.land c 0xff) image).
Proof.
  cbv zeta. change (fo_calculateMD5Hash (flashOptions fileData))
    with calculateMD5Hash. unfold calculateMD5Hash.
  split; [reflexivity | split; [| split]].
  - rewrite Hex_stringify_length, MD5_length. reflexivity.
  - apply Hex_stringify_lower, MD5_bytes.
  - rewrite Latin1_parse_low_bytes. reflexivity.
Qed.

(** ** Programming *)

Lemma tryFinally_result {A} (body : M A) (cleanup : World -> World) w :
  tryFinally body cleanup w = (fst (body w), cleanup (snd (body w))).
Proof. unfold tryFinally. destruct (body w); reflexivity. Qed.

(** C6: however [programFlash] ends, with a value or with an error, it
    leaves the progress at 0 and the programming flag cleared. *)
Theorem programFlash_resets_progress (fileData : jsstring) (w : World) :
  isProgramming (snd (programFlash fileData w)) = false /\
  progress (snd (programFlash fileData w)) = 0%Q.
Proof.
  assert (E : exists body,
             programFlash fileData w
             = tryFinally body
                 (fun w => set_progress 0%Q (set_isProgramming false w))
                 (set_progress 0%Q (set_isProgramming true w)))
    by (eexists; reflexivity).
  destruct E as [body ->]. rewrite tryFinally_result.
  split; reflexivity.
Qed.

(** ** Running the operations symbolically *)

Ltac unfold_session :=
  unfold disconnect, connect, eraseFlash, programFlash,
    closeNativeSerial, cleanupESPTool, setupESPTool, setupNativeSerial,
    whenLoader, writeFlash, tryFinally, void, sleep.

Ltac unfold_monad :=
  unfold bind, modify, pure, throw, perform, log, readable.

(** Split on the next thing the run depends on: how the environment
    settles a call, whether a port is open, or what a cell holds. *)
Ltac branch :=
  match goal with
  | |- context [match answer ?e ?t ?c with _ => _ end] =>
      let H := fresh "Hans" in destruct (answer e t c) eqn:H
  | |- context [if existsb ?f ?l then _ else _] =>
      let H := fresh "Hopen" in destruct (existsb f l) eqn:H
  | |- context [if serialLib ?e then _ else _] =>
      let H := fresh "Hlib" in destruct (serialLib e) eqn:H
  | |- context [match ?x with _ => _ end] => is_var x; destruct x
  end.

(** The progress reports of a [writeFlash] change the progress only. *)
Lemma reportAll_progress o reports w :
  exists q, reportAll o reports w = set_progress q w.
Proof.
  revert w. induction reports as [|[[i written] total] reports IH]; intros w.
  - exists (progress w). destruct w; reflexivity.
  - destruct (IH (set_progress (fo_reportProgress o i written total) w))
      as [q Hq].
    exists q. unfold reportAll in *. simpl. rewrite Hq. reflexivity.
Qed.

Arguments reportAll : simpl never.

Ltac reported :=
  repeat match goal with
    | |- context [reportAll ?o ?rs ?w] =>
        let q := fresh "q" in
        destruct (reportAll_progress o rs w) as [q ->]
    end.

(** A port just opened is open. *)
Lemma existsb_head p l : existsb (Nat.eqb p) (p :: l) = true.
Proof. apply existsb_exists. exists p. split; [now left | apply Nat.eqb_refl]. Qed.

(** The state is opened into its fields first, so that the states of
    the run are records of plain values. *)
Ltac run w :=
  destruct w; unfold_session; unfold_monad; cbn; reported; cbn;
  repeat (rewrite ?existsb_head; branch; cbn; reported; cbn).

Lemma existsb_remove_same p l :
  existsb (Nat.eqb p) (remove Nat.eq_dec p l) = false.
Proof.
  destruct (existsb _ _) eqn:E; [|reflexivity].
  apply existsb_exists in E. destruct E as (x & Hin & Hx).
  apply Nat.eqb_eq in Hx. subst x. now apply remove_In in Hin.
Qed.

Lemma existsb_remove_other p d l :
  existsb (Nat.eqb p) l = false ->
  existsb (Nat.eqb p) (remove Nat.eq_dec d l) = false.
Proof.
  intros H. destruct (existsb _ (remove _ _ _)) eqn:E; [|reflexivity].
  apply existsb_exists in E. destruct E as (x & Hin & Hx).
  apply in_remove in Hin. destruct Hin as [Hin _].
  rewrite <- H. symmetry. apply existsb_exists. eauto.
Qed.

(** The run stopped at the call just rejected. *)
Ltac stopped :=
  unfold stoppedAt; cbn;
  eexists; eexists; split; [reflexivity | split; [eassumption | split]];
  [ first [ exists []; rewrite app_nil_r; reflexivity
          | repeat rewrite <- app_assoc; eexists; reflexivity ]
  | ].

Ltac finish :=
  repeat match goal with
    | t : transport |- _ => destruct t
    | H : Some _ = Some _ |- _ => injection H as H; subst
    end;
  cbn;
  repeat match goal with H : ?x = _ |- context [?x] => rewrite H end;
  cbn;
  try congruence;
  auto using existsb_remove_same, existsb_remove_other.

(** ** Disconnecting *)



(** ** Erasing *)

(** C3, as the code has it: when a step of the erase fails, [eraseFlash]
    clears the erasing flag and throws the error of that step; the
    failing step is the last thing it does, no exit from the bootloader
    is attempted after it.  When the failing step is the chip detection
    or the adapter's erase, the adapter stays attached and the native
    reader and writer stay closed. *)
Theorem eraseFlash_outcome (w : World) :
  match eraseFlash w with
  | (Ok _, w') =>
      isErasing w' = false /\ programmerAdapter w' = false /\
      transportHandle w' = true
  | (Err e, w') =>
      isErasing w' = false /\
      (stoppedAt w w' e
         (fun c => match adapterStep c with
                   | true => programmerAdapter w' = true /\
                             readerRef w' = None /\ writerRef w' = None
                   | false => True
                   end)
       \/ (e = noDevice /\ deviceRef w = None)
       \/ (e = TypeError /\ serialLib (env w) = false))
  end.
Proof.
  run w.
  all: split; [reflexivity|].
  all: try (right; left; split; [reflexivity | congruence]).
  all: try (right; right; split; [reflexivity | congruence]).
  all: try (left; stopped; cbn; try exact I;
            unfold programmerAdapter; cbn; repeat split; finish).
  all: unfold programmerAdapter, transportHandle; cbn; split; reflexivity.
Qed.

(** C3 fails as stated: the page is connected and the adapter's erase is
    rejected.  [eraseFlash] throws right after the rejected erase: the
    transport of the adapter is not disconnected, the native serial is
    not set up again, and the session is left in the bootloader. *)
Lemma eraseFlash_failure_leaves_bootloader :
  fst (eraseFlash (connectedWorld isEraseFlash []))
  = Err (Error (lit "device lost")) /\
  sessionMode (snd (eraseFlash (connectedWorld isEraseFlash [])))
  = Bootloader /\
  last (trace (snd (eraseFlash (connectedWorld isEraseFlash [])))) (Sleep 0)
  = Call (loader_eraseFlash
            (ESPLoader {| lo_transport := Transport 1%nat true;
                          lo_baudrate := Some 115200;
                          lo_debugLogging := false;
                          lo_romBaudrate := Some 115200 |})) /\
  forallb (fun e => match e with
                    | Call (transport_disconnect _) => false
                    | _ => true
                    end)
    (trace (snd (eraseFlash (connectedWorld isEraseFlash [])))) = true.
Proof. vm_compute. repeat split; reflexivity. Qed.

(** ** Preferences *)

(** C8: when the preferences text does not parse as JSON,
    [updateAllSettings] throws before anything is written: the error is
    the parser's (or that of the blank-text check before it), no call
    reaches the port, and the cells and the device are as they were. *)
Theorem updateAllSettings_rejects_malformed (w : World) :
  JSON_parse (env w) (preferences w) = None ->
  exists e w',
    updateAllSettings w = (Err e, w') /\
    (e = SyntaxError \/ e = Error (lit "No preferences data!")) /\
    untouched w w' /\
    preferences w' = preferences w /\
    (isUpdatingPrefs w' = false \/ w' = w).
Proof.
  intros Hparse. unfold updateAllSettings.
  destruct (negb (truthy (trim (preferences w)))).
  - exists (Error (lit "No preferences data!")), w.
    unfold untouched. intuition.
  - exists SyntaxError, (set_isUpdatingPrefs false (set_isUpdatingPrefs true w)).
    rewrite Hparse. split; [reflexivity|].
    unfold untouched. cbn. intuition.
Qed.

(** The theorem at a connected page whose preferences text is [{bad]. *)
Lemma updateAllSettings_rejects_malformed_example :
  exists e w',
    updateAllSettings malformedWorld = (Err e, w') /\
    (e = SyntaxError \/ e = Error (lit "No preferences data!")) /\
    untouched malformedWorld w' /\
    preferences w' = preferences malformedWorld /\
    (isUpdatingPrefs w' = false \/ w' = malformedWorld).
Proof.
  apply (updateAllSettings_rejects_malformed malformedWorld).
  vm_compute. reflexivity.
Defined.

(** The malformed text is rejected by the parser, not by the check for
    a blank text. *)
Example updateAllSettings_malformed_error :
  fst (updateAllSettings malformedWorld) = Err SyntaxError /\
  trace (snd (updateAllSettings malformedWorld)) = trace malformedWorld.
Proof. vm_compute. split; reflexivity. Qed.

Lemma parseInt_baudOptions b :
  In b baudOptions -> exists n, In n baudRates /\ parseInt b = Some n.
Proof.
  unfold baudOptions, baudRates. cbn [In].
  intros [<- | [<- | [<- | [<- | []]]]];
    eexists; (split; [| vm_compute; reflexivity]); cbn [In]; auto.
Qed.

Lemma connect_disconnect_run (w0 : World) :
  match connect w0 with
  | (Ok _, w1) =>
      (exists p,
          trace w1 = trace w0 ++
            [Call requestPort; Call (port_open p (parseInt (baudrate w0)));
             GetWriter p; GetReader p] /\
          sessionMode w1 <> Disconnected /\ transportHandle w1 = true /\
          match disconnect w1 with
          | (Ok _, w2) =>
              sessionMode w2 = Disconnected /\ noTransport w2 = true /\
              programmerAdapter w2 = false /\ chip w2 = None /\
              deviceRef w2 = None /\ readable p w2 = false /\
              (exists rest,
                  trace w2 = trace w1 ++
                    [Call (reader_cancel (Reader p)); ReleaseLock (Reader p);
                     Call (writer_close (Writer p)); Call (port_close p)]
                    ++ rest)
          | (Err _, _) => True
          end)
  | (Err _, _) => True
  end.
Proof.
  run w0; try exact I.
  all: eexists; split; [repeat rewrite <- app_assoc; reflexivity|].
  all: split; [unfold sessionMode; cbn; try destruct (programmerAdapter _);
               discriminate|].
  all: split; [reflexivity|].
  all: repeat match goal with |- _ /\ _ => split end; try reflexivity.
  all: try solve [finish].
  all: try solve [eexists; repeat rewrite <- app_assoc; cbn [app]; reflexivity].
Qed.

(** In a session with nothing left to release, [disconnect] and
    [closeNativeSerial] call nothing and change nothing. *)
Lemma disconnect_idle w :
  sessionMode w = Disconnected -> noTransport w = true ->
  programmerAdapter w = false -> chip w = None -> deviceRef w = None ->
  disconnect w = (Ok tt, w) /\ closeNativeSerial w = (Ok tt, w).
Proof.
  unfold sessionMode, noTransport, programmerAdapter.
  destruct w; cbn.
  destruct isConnected0, serialPortRef0, readerRef0, writerRef0,
    espLoaderRef0, transportRef0; cbn; try discriminate.
  intros _ _ _ -> ->. split; reflexivity.
Qed.

(** ** The read loop *)

Lemma undisturbed_refl w : undisturbed w w.
Proof. unfold undisturbed. repeat split. Qed.

Lemma undisturbed_trans w1 w2 w3 :
  undisturbed w1 w2 -> undisturbed w2 w3 -> undisturbed w1 w3.
Proof. unfold undisturbed. intuition congruence. Qed.

Lemma streamEnded_cons e evs : streamEnded evs -> streamEnded (e :: evs).
Proof.
  intros (evs' & r & t & ->). exists (e :: evs'), r, t. reflexivity.
Qed.

Lemma responseOf_cons decode e evs :
  responseOf decode (e :: evs)
  = responseOf decode [e] ++ responseOf decode evs.
Proof.
  unfold responseOf. destruct e as [| | | | |r t [v| | |]]; try reflexivity.
  simpl. destruct (0 <? length v)%nat; simpl; [|reflexivity].
  rewrite app_nil_r. reflexivity.
Qed.

(** One turn of the loop that goes on: a read, and the back-off after a
    read that timed out or failed. *)
Lemma exchange_turn rd startTime response w t o turn w1 response' w' :
  turn = [Read rd t o] \/ turn = [Read rd t o; Sleep 100] ->
  (o = TimedOut \/ o = Failed -> turn = [Read rd t o; Sleep 100]) ->
  (t - startTime < timeout)%nat ->
  hasMarker response = false ->
  trace w1 = trace w ++ turn ->
  undisturbed w w1 ->
  (now w <= now w1 <= startTime + 3099)%nat ->
  exchange rd startTime
    (response ++ responseOf (TextDecoder_decode (env w)) [Read rd t o])
    w1 response' w' ->
  exchange rd startTime response w response' w'.
Proof.
  intros Hturn Hback Ht Hm Htrace Hsame Hnow
    (evs & Htr & Hresp & Hall & Hbudget & Hbo & Hexit & Hbound & Hsame').
  assert (Henv : env w1 = env w) by apply Hsame.
  rewrite Henv in *.
  exists (turn ++ evs). repeat match goal with |- _ /\ _ => split end.
  - rewrite Htr, Htrace, app_assoc. reflexivity.
  - rewrite Hresp, <- app_assoc. f_equal. symmetry.
    destruct Hturn as [-> | ->]; cbn [app];
      rewrite (responseOf_cons _ (Read rd t o)); reflexivity.
  - apply Forall_app. split; [|assumption].
    destruct Hturn as [-> | ->]; repeat constructor.
  - destruct Hturn as [-> | ->]; cbn; auto.
  - destruct Hturn as [-> | ->].
    + destruct o; cbn; auto;
        exfalso; (discriminate Hback; auto).
    + destruct o; cbn; eauto.
  - destruct Hexit as [H | [H | H]]; auto.
    right; right. destruct Hturn as [-> | ->]; cbn [app];
      repeat apply streamEnded_cons; assumption.
  - lia.
  - eapply undisturbed_trans; eassumption.
Qed.

Lemma budgetTurns_mono a b : (a <= b)%nat -> (budgetTurns b <= budgetTurns a)%nat.
Proof.
  unfold budgetTurns, timeout. intros H.
  destruct (Nat.ltb_spec a 900), (Nat.ltb_spec b 900),
    (Nat.ltb_spec a 2000), (Nat.ltb_spec b 2000); lia.
Qed.

Lemma budgetTurns_timed_out a :
  (a < timeout)%nat -> (budgetTurns (a + 1100) < budgetTurns a)%nat.
Proof.
  unfold budgetTurns, timeout. intros H.
  destruct (Nat.ltb_spec a 900), (Nat.ltb_spec (a + 1100) 900),
    (Nat.ltb_spec a 2000), (Nat.ltb_spec (a + 1100) 2000); lia.
Qed.

(** A turn that goes on: the rest of the loop is the induction
    hypothesis, and [exchange_turn] puts the turn in front of it. *)
Ltac go_on IH outcome events :=
  match goal with
  | Hm : hasMarker _ = false |- context [readLoop _ ?rd ?s ?resp1 ?wnext] =>
      match goal with |- context [exchange _ _ _ ?w] =>
      let resp' := fresh "resp'" in
      let w' := fresh "w'" in
      let Hl := fresh "Hloop" in
      let Hex := fresh "Hex" in
      destruct (IH rd s resp1 wnext) as (resp' & w' & Hl & Hex);
      [ cbn
      | first [assumption | exact Hm]
      | cbn; lia
      | exists resp', w'; split; [exact Hl|];
        eapply exchange_turn with (o := outcome) (turn := events) (w1 := wnext);
        [ first [left; reflexivity | right; reflexivity]
        | intros [E | E]; first [reflexivity | discriminate E]
        | unfold timeout; cbn; lia
        | exact Hm
        | cbn; rewrite <- ?app_assoc; reflexivity
        | unfold undisturbed; cbn; repeat split
        | cbn; lia
        | unfold responseOf; cbn;
          repeat match goal with
            | H : (_ <? _)%nat = _ |- _ => rewrite H
            end;
          cbn; rewrite ?app_nil_r; exact Hex ] ]
      end
  end.

(** The loop ends, having logged an exchange, whenever its fuel covers
    the entries of [incoming] and the turns a silent device costs. *)
Lemma readLoop_exchange fuel :
  forall rd startTime response w,
    (length (incoming w) + budgetTurns (now w - startTime) < fuel)%nat ->
    hasMarker response = false ->
    (startTime <= now w)%nat ->
    exists response' w',
      readLoop fuel rd startTime response w = Some (Ok response', w') /\
      exchange rd startTime response w response' w'.
Proof.
  induction fuel as [|fuel IH]; intros rd startTime response w Hfuel Hm Hstart;
    [lia|].
  cbn [readLoop].
  destruct (Nat.ltb_spec (now w - startTime) timeout) as [Hin | Hout].
  2:{ exists response, w. split; [reflexivity|].
      exists []. rewrite !app_nil_r. cbn.
      repeat match goal with |- _ /\ _ => split end;
        auto using undisturbed_refl; lia. }
  assert (Hturns := budgetTurns_timed_out _ Hin).
  unfold timeout in Hin.
  destruct w. cbn in Hfuel, Hstart, Hin, Hturns.
  unfold readOnce, tryCatch, bind, raceRead, sleep, modify, pure, log.
  cbn.
  destruct incoming0 as [|r rest]; cbn.
  - go_on IH TimedOut [Read rd now0 TimedOut; Sleep 100].
    replace (now0 + 1000 + 100 - startTime)%nat
      with (now0 - startTime + 1100)%nat by lia.
    cbn in Hfuel. lia.
  - cbn in Hfuel.
    assert (Hmono : forall dt,
               (budgetTurns (now0 + dt - startTime)
                <= budgetTurns (now0 - startTime))%nat)
      by (intros dt; apply budgetTurns_mono; lia).
    destruct (Nat.ltb_spec (latency r) 1000) as [Hlat | Hlat].
    + destruct r as [l v | l | l e]; cbn in Hlat |- *.
      * destruct (0 <? length v)%nat eqn:Hlen; cbn.
        -- destruct (hasMarker (response ++ TextDecoder_decode env0 v))
             eqn:Hmark; cbn.
           ++ eexists; eexists; split; [reflexivity|].
              exists [Read rd now0 (Got v)].
              unfold responseOf, undisturbed; cbn; rewrite Hlen; cbn.
              rewrite app_nil_r.
              repeat match goal with |- _ /\ _ => split end;
                auto; try (repeat constructor; fail); unfold timeout; lia.
           ++ go_on IH (Got v) [Read rd now0 (Got v)].
              specialize (Hmono l). lia.
        -- go_on IH (Got v) [Read rd now0 (Got v)].
           specialize (Hmono l). lia.
      * eexists; eexists; split; [reflexivity|].
        exists [Read rd now0 Done].
        unfold responseOf, undisturbed; cbn. rewrite app_nil_r.
        repeat match goal with |- _ /\ _ => split end;
          auto; try (repeat constructor; fail); unfold timeout; try lia.
        right; right. exists [], rd, now0. reflexivity.
      * go_on IH Failed [Read rd now0 Failed; Sleep 100].
        specialize (Hmono (l + 100)%nat).
        replace (now0 + l + 100)%nat with (now0 + (l + 100))%nat by lia. lia.
    + go_on IH TimedOut [Read rd now0 TimedOut; Sleep 100].
      specialize (Hmono 1100%nat).
      replace (now0 + 1000 + 100)%nat with (now0 + 1100)%nat by lia. lia.
Qed.

(** More fuel does not change what the loop returns. *)
Lemma readLoop_more fuel :
  forall fuel' rd startTime response w r,
    (fuel <= fuel')%nat ->
    readLoop fuel rd startTime response w = Some r ->
    readLoop fuel' rd startTime response w = Some r.
Proof.
  induction fuel as [|fuel IH]; intros fuel' rd startTime response w r Hle H;
    [discriminate H|].
  destruct fuel' as [|fuel']; [lia|].
  cbn [readLoop] in *.
  destruct (now w - startTime <? timeout)%nat; [|assumption].
  destruct (readOnce rd response w) as [[[[|] response1]|e] w1];
    try assumption.
  apply IH; [lia | assumption].
Qed.

(** ** [sendCommand] *)

(** What one [sendCommand] does, for the theorems below: the write, and
    when it resolves, the read loop started at the time of the write. *)
Lemma sendCommand_run command w wr rd :
  writerRef w = Some wr -> readerRef w = Some rd ->
  match answer (env w) (trace w) (commandLine command w wr) with
  | Reject e =>
      sendCommand command w = (Err e, log (Call (commandLine command w wr)) w)
  | Resolve _ =>
      exists raw w',
        sendCommand command w = (Ok (trim raw), w') /\
        (forall fuel,
            (readFuel w <= fuel)%nat ->
            readLoop fuel rd (now w) []
              (log (Call (commandLine command w wr)) w)
            = Some (Ok raw, w')) /\
        exchange rd (now w) []
          (log (Call (commandLine command w wr)) w) raw w'
  end.
Proof.
  intros Hwr Hrd. unfold sendCommand, commandLine. rewrite Hwr, Hrd.
  unfold bind, perform.
  destruct (answer _ _ _) as [a | e]; [|reflexivity].
  match goal with
  | |- context [readLoop _ _ _ _ (set_openPorts ?ports ?w1)] =>
      replace (set_openPorts ports w1) with w1 by (destruct w; reflexivity);
      change (readFuel w1) with (readFuel w); change (now w1) with (now w);
      destruct (readLoop_exchange (readFuel w) rd (now w) [] w1)
        as (raw & w' & Hloop & Hex)
  end;
    [ unfold readFuel; cbn [now incoming log set_trace];
      rewrite Nat.sub_diag; change (budgetTurns 0) with 2%nat; lia
    | reflexivity | cbn; lia |].
  exists raw, w'. rewrite Hloop.
  repeat match goal with |- _ /\ _ => split end; try reflexivity.
  - intros fuel Hfuel. eapply readLoop_more; eassumption.
  - exact Hex.
Qed.

Lemma sendCommand_undisturbed command w :
  undisturbed w (snd (sendCommand command w)).
Proof.
  destruct (writerRef w) as [wr|] eqn:Hwr, (readerRef w) as [rd|] eqn:Hrd;
    try (unfold sendCommand; rewrite Hwr, ?Hrd; apply undisturbed_refl).
  pose proof (sendCommand_run command w wr rd Hwr Hrd) as H.
  destruct (answer _ _ _) as [a | e].
  - destruct H as (raw & w' & -> & _ & evs & _ & _ & _ & _ & _ & _ & _ & Hsame).
    eapply undisturbed_trans; [|exact Hsame].
    unfold undisturbed. cbn. repeat split.
  - rewrite H. unfold undisturbed. cbn. repeat split.
Qed.



(** What the exchange with the device that answers in pieces returns:
    the piece that came after its read had timed out is lost. *)
Example sendCommand_chatty :
  fst (sendCommand PING chattyWorld) = Ok (lit "OK END").
Proof. vm_compute. reflexivity. Qed.


Lemma raceRead_bound rd w :
  (now w <= now (snd (raceRead rd w)) <= now w + 1000)%nat.
Proof.
  unfold raceRead. destruct (incoming w) as [|r rest]; cbn; [lia|].
  destruct (Nat.ltb_spec (latency r) 1000); [destruct r|]; cbn in *; lia.
Qed.




(** ** Loading the preferences *)

(** C10: [getAllSettings] clears the loading flag however it ends.  An
    empty answer to [GET_ALL_PREFS] is not shown: the function throws
    "No response received from device" and the preferences stay as they
    were.  An answer that is not empty is shown as JSON with an indent
    of 2 when it parses, and as it came when it does not.  An error of
    the exchange is passed on. *)
Theorem getAllSettings_outcome (w : World) :
  isLoadingPrefs (snd (getAllSettings w)) = false /\
  match fst (sendCommand (lit "GET_ALL_PREFS") (set_isLoadingPrefs true w)) with
  | Err e =>
      fst (getAllSettings w) = Err e /\
      preferences (snd (getAllSettings w)) = preferences w
  | Ok [] =>
      fst (getAllSettings w) = Err noResponse /\
      preferences (snd (getAllSettings w)) = preferences w
  | Ok (c :: response) =>
      fst (getAllSettings w) = Ok tt /\
      preferences (snd (getAllSettings w))
      = match JSON_parse (env w) (c :: response) with
        | Some jsonData => JSON_stringify (env w) jsonData (Some 2%nat)
        | None => c :: response
        end
  end.
Proof.
  assert (E : exists body,
             getAllSettings w
             = tryFinally body (set_isLoadingPrefs false)
                 (set_isLoadingPrefs true w) /\
             body = (response <- sendCommand (lit "GET_ALL_PREFS") ;;
                     if truthy response then
                       fun w =>
                         match JSON_parse (env w) response with
                         | Some jsonData =>
                             modify (set_preferences
                                       (JSON_stringify (env w) jsonData
                                          (Some 2%nat))) w
                         | None => modify (set_preferences response) w
                         end
                     else throw noResponse))
    by (eexists; split; reflexivity).
  destruct E as (body & -> & ->). rewrite tryFinally_result.
  split; [reflexivity|].
  pose proof (sendCommand_undisturbed (lit "GET_ALL_PREFS")
                (set_isLoadingPrefs true w)) as Hsame.
  unfold bind.
  destruct (sendCommand _ _) as [[[|c response]|e] w1]; cbn in *.
  - split; [reflexivity | apply Hsame].
  - assert (Henv : env w1 = env w) by apply Hsame. rewrite Henv.
    destruct (JSON_parse (env w) (c :: response)); cbn; auto.
  - split; [reflexivity | apply Hsame].
Qed.

(** The device never answers: nothing is shown. *)
Example getAllSettings_silent_device :
  fst (getAllSettings silentWorld) = Err noResponse /\
  preferences (snd (getAllSettings silentWorld)) = [] /\
  isLoadingPrefs (snd (getAllSettings silentWorld)) = false.
Proof. vm_compute. repeat split; reflexivity. Qed.

(** An answer that is not JSON is shown as it came. *)
Example getAllSettings_raw :
  preferences
    (snd (getAllSettings
            (connectedWorld cooperative [chunk 5 (lit "brightness=3 END")])))
  = lit "brightness=3 END".
Proof. vm_compute. reflexivity. Qed.

(** ** Connecting and disconnecting *)



(** ** The session invariant *)

Arguments sessionInvariant : simpl never.
Arguments transportHandle : simpl never.

(** Settle what is left of a goal about the cells once the run is over:
    the cells that still matter are split by cases. *)
Ltac cells :=
  unfold sessionInvariant, programmerAdapter, transportHandle, isSome in *;
  cbn in *;
  repeat match goal with
    | H : context [match ?x with _ => _ end] |- _ => is_var x; destruct x
    | |- context [match ?x with _ => _ end] => is_var x; destruct x
    | H : context [Bool.eqb _ ?x] |- _ => is_var x; destruct x
    | H : context [implb _ ?x] |- _ => is_var x; destruct x
    end;
  cbn in *; try discriminate; auto.

Lemma connect_session w :
  sessionInvariant w = true ->
  match connect w with
  | (Ok _, w') =>
      sessionInvariant w' = true /\ transportHandle w' = isConnected w'
  | (Err _, w') => sessionInvariant w' = true
  end.
Proof. intros Hinv. run w; cells. Qed.

Lemma disconnect_session w :
  sessionInvariant w = true ->
  match disconnect w with
  | (Ok _, w') =>
      sessionInvariant w' = true /\ transportHandle w' = isConnected w'
  | (Err _, w') => sessionInvariant w' = true
  end.
Proof. intros Hinv. run w; cells. Qed.

Lemma eraseFlash_session w :
  sessionInvariant w = true ->
  match eraseFlash w with
  | (Ok _, w') =>
      sessionInvariant w' = true /\ transportHandle w' = isConnected w'
  | (Err _, w') => sessionInvariant w' = true
  end.
Proof. intros Hinv. run w; cells. Qed.

Lemma programFlash_session fileData w :
  sessionInvariant w = true ->
  match programFlash fileData w with
  | (Ok _, w') =>
      sessionInvariant w' = true /\ transportHandle w' = isConnected w'
  | (Err _, w') => sessionInvariant w' = true
  end.
Proof. intros Hinv. run w; cells. Qed.

Lemma undisturbed_session w w' :
  undisturbed w w' -> sessionInvariant w' = sessionInvariant w.
Proof.
  unfold undisturbed, sessionInvariant, programmerAdapter.
  intros H. decompose [and] H. congruence.
Qed.

Lemma getAllSettings_session w :
  sessionInvariant (snd (getAllSettings w)) = sessionInvariant w.
Proof.
  unfold getAllSettings, bind, modify, tryFinally.
  pose proof (sendCommand_undisturbed (lit "GET_ALL_PREFS")
                (set_isLoadingPrefs true w)) as Hsame.
  apply undisturbed_session in Hsame.
  destruct (sendCommand _ _) as [[response|e] w1]; cbn in Hsame |- *;
    [destruct (truthy response); cbn;
     [destruct (JSON_parse _ _); cbn|]|]; exact Hsame.
Qed.

Lemma updateAllSettings_session w :
  sessionInvariant (snd (updateAllSettings w)) = sessionInvariant w.
Proof.
  unfold updateAllSettings.
  destruct (negb _); [reflexivity|].
  unfold bind, modify, tryFinally.
  destruct (JSON_parse _ _) as [prefsData|]; [|reflexivity].
  match goal with
  | |- context [sendCommand ?c ?w0] =>
      pose proof (sendCommand_undisturbed c w0) as Hsame;
      apply undisturbed_session in Hsame;
      destruct (sendCommand c w0) as [[response|e] w1]
  end; cbn in Hsame |- *;
    [destruct (includes _ _); cbn|]; exact Hsame.
Qed.

(** One operation from a state in which the invariant holds. *)
Lemma exec_session o w :
  sessionInvariant w = true ->
  sessionInvariant (snd (exec o w)) = true /\
  (sessionOperation o = true -> succeeds o w = true ->
   transportHandle (snd (exec o w)) = isConnected (snd (exec o w))).
Proof.
  intros Hinv. unfold succeeds.
  destruct o as [| | |fileData|command| | |text]; cbn [exec sessionOperation].
  - pose proof (connect_session w Hinv) as H.
    destruct (connect w) as [[[]|e] w']; cbn; intuition discriminate.
  - pose proof (disconnect_session w Hinv) as H.
    destruct (disconnect w) as [[[]|e] w']; cbn; intuition discriminate.
  - pose proof (eraseFlash_session w Hinv) as H.
    destruct (eraseFlash w) as [[[]|e] w']; cbn; intuition discriminate.
  - pose proof (programFlash_session fileData w Hinv) as H.
    destruct (programFlash fileData w) as [[[]|e] w']; cbn;
      intuition discriminate.
  - split; [|discriminate].
    pose proof (sendCommand_undisturbed command w) as Hsame.
    apply undisturbed_session in Hsame.
    unfold void, bind. destruct (sendCommand command w) as [[r|e] w'];
      cbn in *; congruence.
  - split; [|discriminate]. rewrite getAllSettings_session. exact Hinv.
  - split; [|discriminate].
    pose proof (updateAllSettings_session w) as Hsame.
    unfold void, bind. destruct (updateAllSettings w) as [[r|e] w'];
      cbn in *; congruence.
  - split; [exact Hinv | discriminate].
Qed.

Lemma reachable_invariant w : reachable w -> sessionInvariant w = true.
Proof.
  induction 1 as [baud e inbox | o w _ IH]; [reflexivity|].
  apply exec_session, IH.
Qed.

Lemma sessionMode_Disconnected w :
  sessionMode w = Disconnected <-> isConnected w = false.
Proof.
  unfold sessionMode.
  destruct (isConnected w), (programmerAdapter w); cbn;
    split; congruence.
Qed.


Lemma strandedWorld_reachable : reachable strandedWorld.
Proof. unfold strandedWorld. do 2 apply reach_step. apply reach_initial. Qed.



(** ** The flash operations, step by step *)

Arguments nativeSteps : simpl never.

(** Name the release events that came before the listed steps. *)
Ltac choose_pre :=
  match goal with
  | |- exists pre, ?t ++ ?l = ?t ++ pre ++ ?steps /\ _ =>
      let pre := eval cbn in (firstn (length l - length steps) l) in
      exists pre; split; reflexivity
  end.

Ltac released :=
  unfold onlyReleased; cbn; repeat rewrite <- app_assoc; cbn [app];
  first [ exists (@nil event); rewrite app_nil_r; repeat split; reflexivity
        | eexists; split; [reflexivity | repeat split; reflexivity] ].

Lemma eraseFlash_run w :
  match eraseFlash w with
  | (Ok _, w') =>
      exists d p,
        deviceRef w = Some d /\
        (exists pre, trace w' = trace w ++ pre ++ eraseSteps w d p /\
                     forallb isRelease pre = true) /\
        backInNative w w' p /\
        isErasing w' = false /\ now w' = (now w + 1000)%nat
  | (Err e, w') =>
      isConnected w' = isConnected w /\ isErasing w' = false /\
      match deviceRef w with
      | None => onlyReleased w w'
      | Some _ => True
      end
  end.
Proof.
  run w.
  all: try (split; [reflexivity | split; [reflexivity|]];
            first [exact I | released]).
  all: eexists; eexists; split; [reflexivity|].
  all: split; [unfold eraseSteps, nativeSteps; cbn;
               repeat rewrite <- app_assoc; cbn [app]; choose_pre|].
  all: unfold backInNative, readable; cbn; rewrite ?existsb_head;
    repeat split; reflexivity.
Qed.

Lemma programFlash_run fileData w :
  match programFlash fileData w with
  | (Ok _, w') =>
      exists d p,
        deviceRef w = Some d /\
        (exists pre, trace w' = trace w ++ pre ++ programSteps fileData w d p /\
                     forallb isRelease pre = true) /\
        backInNative w w' p /\
        isProgramming w' = false /\ progress w' = 0%Q /\
        now w' = (now w + 2000)%nat
  | (Err e, w') =>
      isConnected w' = isConnected w /\
      isProgramming w' = false /\ progress w' = 0%Q /\
      match deviceRef w with
      | None => onlyReleased w w'
      | Some _ =>
          stoppedAt w w' e
            (fun c => match programStep c with
                      | true => programmerAdapter w' = true /\
                                readerRef w' = None /\ writerRef w' = None
                      | false => True
                      end)
          \/ (e = TypeError /\ serialLib (env w) = false)
      end
  end.
Proof.
  run w.
  all: try (split; [reflexivity | split; [reflexivity | split; [reflexivity|]]];
            first [ released
                  | right; split; [reflexivity | congruence]
                  | left; stopped; cbn; try exact I;
                    unfold programmerAdapter; cbn; repeat split; finish ]).
  all: eexists; eexists; split; [reflexivity|].
  all: split; [unfold programSteps, nativeSteps; cbn;
               repeat rewrite <- app_assoc; cbn [app]; choose_pre|].
  all: unfold backInNative, readable; cbn; rewrite ?existsb_head;
    repeat split; reflexivity.
Qed.

(** X1: a program that succeeds runs its steps in this order, after the
    release of the native serial: chip detection, the write of the one
    image at 0x10000 with the options of [flashOptions], the hard reset,
    the release of the adapter, 2000 ms of waiting, and a new native
    connection on the port granted then.  It ends in Native framing on
    that port, with progress 0 and the flag cleared. *)
Theorem programFlash_choreography (fileData : jsstring) (w : World) :
  match programFlash fileData w with
  | (Ok _, w') =>
      exists d p,
        deviceRef w = Some d /\
        (exists pre, trace w' = trace w ++ pre ++ programSteps fileData w d p /\
                     forallb isRelease pre = true) /\
        backInNative w w' p /\
        isProgramming w' = false /\ progress w' = 0%Q /\
        now w' = (now w + 2000)%nat
  | (Err _, _) => True
  end.
Proof.
  pose proof (programFlash_run fileData w) as H.
  destruct (programFlash fileData w) as [[[]|e] w']; [exact H | exact I].
Qed.

(** X2: a program that fails throws the error of its failing step, which
    is the last thing it does, with progress 0 and the flag cleared;
    when that step is the chip detection, the write or the reset, the
    adapter stays attached and the native reader and writer stay
    closed.  The connected flag is as it was. *)
Theorem programFlash_failure (fileData : jsstring) (w : World) :
  match programFlash fileData w with
  | (Ok _, _) => True
  | (Err e, w') =>
      isConnected w' = isConnected w /\
      isProgramming w' = false /\ progress w' = 0%Q /\
      match deviceRef w with
      | None => onlyReleased w w'
      | Some _ =>
          stoppedAt w w' e
            (fun c => match programStep c with
                      | true => programmerAdapter w' = true /\
                                readerRef w' = None /\ writerRef w' = None
                      | false => True
                      end)
          \/ (e = TypeError /\ serialLib (env w) = false)
      end
  end.
Proof.
  pose proof (programFlash_run fileData w) as H.
  destruct (programFlash fileData w) as [[[]|e] w']; [exact I | exact H].
Qed.

(** X3: an erase that succeeds runs its steps in this order, after the
    release of the native serial: chip detection, the erase, the release
    of the adapter, 1000 ms of waiting, and a new native connection on
    the port granted then, on which it ends in Native framing. *)
Theorem eraseFlash_choreography (w : World) :
  match eraseFlash w with
  | (Ok _, w') =>
      exists d p,
        deviceRef w = Some d /\
        (exists pre, trace w' = trace w ++ pre ++ eraseSteps w d p /\
                     forallb isRelease pre = true) /\
        backInNative w w' p /\
        isErasing w' = false /\ now w' = (now w + 1000)%nat
  | (Err _, _) => True
  end.
Proof.
  pose proof (eraseFlash_run w) as H.
  destruct (eraseFlash w) as [[[]|e] w']; [exact H | exact I].
Qed.

(** X4: without a device, erase and program fail before any adapter is
    built: at most the native resources are released, and the adapter
    cells, the chip identity and the connected flag stay as they were. *)
Theorem flash_without_device (w : World) :
  deviceRef w = None ->
  (exists e w', eraseFlash w = (Err e, w') /\
                onlyReleased w w' /\ isConnected w' = isConnected w) /\
  (forall fileData,
      exists e w', programFlash fileData w = (Err e, w') /\
                   onlyReleased w w' /\ isConnected w' = isConnected w).
Proof.
  intros Hdev. split; [|intros fileData].
  - pose proof (eraseFlash_run w) as H.
    destruct (eraseFlash w) as [[[]|e] w'].
    + destruct H as (d & p & Hd & _). congruence.
    + rewrite Hdev in H. exists e, w'. tauto.
  - pose proof (programFlash_run fileData w) as H.
    destruct (programFlash fileData w) as [[[]|e] w'].
    + destruct H as (d & p & Hd & _). congruence.
    + rewrite Hdev in H. exists e, w'. tauto.
Qed.

(** The theorem at a page that was never connected. *)
Lemma flash_without_device_example :
  (exists e w', eraseFlash freshWorld = (Err e, w') /\
                onlyReleased freshWorld w' /\
                isConnected w' = isConnected freshWorld) /\
  (forall fileData,
      exists e w', programFlash fileData freshWorld = (Err e, w') /\
                   onlyReleased freshWorld w' /\
                   isConnected w' = isConnected freshWorld).
Proof. apply (flash_without_device freshWorld). reflexivity. Defined.

(** X5: erase and program never change the connected flag, whether they
    succeed or fail. *)
Theorem flash_keeps_connected (fileData : jsstring) (w : World) :
  isConnected (snd (eraseFlash w)) = isConnected w /\
  isConnected (snd (programFlash fileData w)) = isConnected w.
Proof.
  split.
  - pose proof (eraseFlash_run w) as H.
    destruct (eraseFlash w) as [[[]|e] w']; cbn.
    + destruct H as (d & p & _ & _ & Hback & _). apply Hback.
    + apply H.
  - pose proof (programFlash_run fileData w) as H.
    destruct (programFlash fileData w) as [[[]|e] w']; cbn.
    + destruct H as (d & p & _ & _ & Hback & _). apply Hback.
    + apply H.
Qed.

(** ** Connecting *)

(** X6: a connect that succeeds marks the session connected on the port
    granted, open, with its reader and writer and the chip identity
    "Native Connection".  A connect that fails leaves the connected
    flag, the reader, the writer, the device, the chip identity and the
    adapter as they were; it failed at the port picker, at the opening
    of the port, or for want of a serial interface. *)
Theorem connect_outcome (w : World) :
  match connect w with
  | (Ok _, w') =>
      exists p,
        trace w' = trace w ++ nativeSteps w p /\
        isConnected w' = true /\
        serialPortRef w' = Some p /\ readerRef w' = Some (Reader p) /\
        writerRef w' = Some (Writer p) /\ deviceRef w' = Some p /\
        chip w' = Some nativeConnection /\ readable p w' = true /\
        transportRef w' = transportRef w /\ espLoaderRef w' = espLoaderRef w
  | (Err e, w') =>
      isConnected w' = isConnected w /\
      readerRef w' = readerRef w /\ writerRef w' = writerRef w /\
      deviceRef w' = deviceRef w /\ chip w' = chip w /\
      transportRef w' = transportRef w /\ espLoaderRef w' = espLoaderRef w /\
      (stoppedAt w w' e (fun c => nativeStep c = true)
       \/ (e = TypeError /\ serialLib (env w) = false /\ trace w' = trace w))
  end.
Proof.
  run w.
  - eexists. unfold nativeSteps, readable; cbn.
    rewrite existsb_head, <- !app_assoc. repeat split; reflexivity.
  - repeat (split; [reflexivity|]). left. stopped. reflexivity.
  - repeat (split; [reflexivity|]). left. stopped. reflexivity.
  - repeat (split; [reflexivity|]). right. repeat split; reflexivity.
Qed.

(** ** After a disconnect *)

Lemma disconnect_released w :
  match disconnect w with
  | (Ok _, w') => released w'
  | (Err _, _) => True
  end.
Proof.
  run w; try exact I.
  all: unfold released, readable; cbn.
  all: repeat split; finish.
Qed.

(** With nothing to release and no device, the device operations are
    refused without a call to the outside. *)
Lemma released_refuses w :
  released w ->
  (forall command, sendCommand command w = (Err notConnected, w)) /\
  fst (getAllSettings w) = Err notConnected /\
  trace (snd (getAllSettings w)) = trace w /\
  fst (eraseFlash w) = Err noDevice /\
  trace (snd (eraseFlash w)) = trace w /\
  (forall fileData,
      fst (programFlash fileData w) = Err noDevice /\
      trace (snd (programFlash fileData w)) = trace w).
Proof.
  unfold released, readable.
  destruct w as [b ic ch dev tr ld sp wr rd ie ip pg pf il iu e n inc op tc].
  cbn. intros (-> & -> & -> & Hport).
  unfold getAllSettings, sendCommand, tryFinally.
  unfold_session; unfold_monad; cbn.
  destruct sp as [p|]; [rewrite Hport|]; cbn;
    repeat match goal with
      | |- _ /\ _ => split
      | |- forall _, _ => intro
      end; reflexivity.
Qed.

(** X7: after a disconnect that succeeded, the device operations are
    refused without a call to the outside: [sendCommand] and
    [getAllSettings] throw "Native serial not connected", erase and
    program throw "No device available". *)
Theorem disconnected_refuses (w : World) :
  match disconnect w with
  | (Ok _, w') =>
      (forall command, sendCommand command w' = (Err notConnected, w')) /\
      fst (getAllSettings w') = Err notConnected /\
      trace (snd (getAllSettings w')) = trace w' /\
      fst (eraseFlash w') = Err noDevice /\
      trace (snd (eraseFlash w')) = trace w' /\
      (forall fileData,
          fst (programFlash fileData w') = Err noDevice /\
          trace (snd (programFlash fileData w')) = trace w')
  | (Err _, _) => True
  end.
Proof.
  pose proof (disconnect_released w) as H.
  destruct (disconnect w) as [[[]|e] w']; [|exact I].
  apply released_refuses, H.
Qed.

(** ** What [sendCommand] returns *)

Lemma trimStart_starts s : startsWithSpace (trimStart s) = false.
Proof.
  induction s as [|c s IH]; [reflexivity|].
  cbn [trimStart]. destruct (isWhiteSpace c) eqn:E; [exact IH|].
  cbn. exact E.
Qed.

Lemma trimStart_fixed s : startsWithSpace s = false -> trimStart s = s.
Proof.
  destruct s as [|c s]; [reflexivity|]. cbn. intros ->. reflexivity.
Qed.

Lemma trimStart_snoc s c :
  isWhiteSpace c = false -> trimStart (s ++ [c]) = trimStart s ++ [c].
Proof.
  intros Hc. induction s as [|x s IH]; cbn [app trimStart].
  - rewrite Hc. reflexivity.
  - destruct (isWhiteSpace x); [exact IH | reflexivity].
Qed.

Lemma trimEnd_ends s : endsWithSpace (trimEnd s) = false.
Proof.
  unfold endsWithSpace, trimEnd. rewrite rev_involutive.
  apply trimStart_starts.
Qed.

Lemma trimEnd_starts s :
  startsWithSpace s = false -> startsWithSpace (trimEnd s) = false.
Proof.
  destruct s as [|c s]; [reflexivity|]. cbn [startsWithSpace]. intros Hc.
  unfold trimEnd. cbn [rev]. rewrite trimStart_snoc by exact Hc.
  rewrite rev_app_distr. cbn. exact Hc.
Qed.

Lemma trimEnd_fixed s : endsWithSpace s = false -> trimEnd s = s.
Proof.
  unfold endsWithSpace, trimEnd. intros H.
  rewrite trimStart_fixed by exact H. apply rev_involutive.
Qed.

Lemma trim_clean s :
  startsWithSpace (trim s) = false /\ endsWithSpace (trim s) = false /\
  trim (trim s) = trim s.
Proof.
  assert (Hs : startsWithSpace (trim s) = false)
    by (unfold trim; apply trimEnd_starts, trimStart_starts).
  assert (He : endsWithSpace (trim s) = false)
    by (unfold trim; apply trimEnd_ends).
  repeat split; auto.
  unfold trim at 1. rewrite (trimStart_fixed _ Hs). apply trimEnd_fixed, He.
Qed.

(** X8: a response that [sendCommand] returns neither starts nor ends
    with white space, and trimming it again changes nothing; so the
    test [if (response)] of [getAllSettings] fails exactly on answers
    made of white space only. *)
Theorem sendCommand_trimmed (command : jsstring) (w : World) :
  match fst (sendCommand command w) with
  | Ok response =>
      startsWithSpace response = false /\ endsWithSpace response = false /\
      trim response = response
  | Err _ => True
  end.
Proof.
  unfold sendCommand.
  destruct (writerRef w) as [wr|]; [|exact I].
  destruct (readerRef w) as [rd|]; [|exact I].
  unfold bind. destruct (perform _ w) as [[a|e] w1]; [|exact I].
  destruct (readLoop _ _ _ _ _) as [[[response|e] w2]|]; cbn;
    try exact I; try apply trim_clean.
  repeat split.
Qed.

(** ** Updating the settings *)

(** X9: what [updateAllSettings] comes back with.  A text that is blank
    is refused before anything is done, the updating flag included.
    Otherwise the flag is cleared at the end whatever happened; the
    result is [Response: ] and the answer of the device to the one
    command sent, which holds no [ERROR]; an answer that holds [ERROR]
    is thrown as [Update failed: ] and the answer.  The preferences
    text is never changed. *)
Theorem updateAllSettings_outcome (w : World) :
  match updateAllSettings w with
  | (Ok result, w') =>
      exists prefsData response,
        JSON_parse (env w) (preferences w) = Some prefsData /\
        fst (sendCommand (setAllPrefs w prefsData) (set_isUpdatingPrefs true w))
        = Ok response /\
        result = lit "Response: " ++ response /\
        includes response ERROR = false /\
        isUpdatingPrefs w' = false /\ preferences w' = preferences w
  | (Err e, w') =>
      preferences w' = preferences w /\
      if truthy (trim (preferences w))
      then isUpdatingPrefs w' = false /\
           ((e = SyntaxError /\ JSON_parse (env w) (preferences w) = None) \/
            (exists response,
                e = updateFailed response /\ includes response ERROR = true) \/
            (exists prefsData,
                fst (sendCommand (setAllPrefs w prefsData)
                       (set_isUpdatingPrefs true w)) = Err e))
      else e = noPreferences /\ w' = w
  end.
Proof.
  unfold updateAllSettings.
  destruct (truthy (trim (preferences w))); cbn [negb];
    [|split; [reflexivity | split; reflexivity]].
  unfold tryFinally, bind, modify.
  destruct (JSON_parse (env w) (preferences w)) as [prefsData|] eqn:Hparse.
  2:{ cbn. split; [reflexivity|]. split; [reflexivity|].
      left. split; reflexivity. }
  fold (setAllPrefs w prefsData).
  pose proof (sendCommand_undisturbed (setAllPrefs w prefsData)
                (set_isUpdatingPrefs true w)) as Hsame.
  destruct (sendCommand _ _) as [[response|e] w1] eqn:Hsend.
  - assert (Hprefs : preferences w1 = preferences w)
      by (destruct Hsame as (_ & _ & _ & _ & _ & _ & _ & _ & _ & _ & _ & _ &
                             _ & H & _); exact H).
    change (lit "ERROR") with ERROR.
    destruct (includes response ERROR) eqn:Hinc; cbn.
    + split; [exact Hprefs|]. split; [reflexivity|].
      right; left. exists response. split; [reflexivity | exact Hinc].
    + exists prefsData, response.
      repeat match goal with |- _ /\ _ => split end;
        first [reflexivity | assumption | exact Hprefs
              | rewrite Hsend; reflexivity].
  - assert (Hprefs : preferences w1 = preferences w)
      by (destruct Hsame as (_ & _ & _ & _ & _ & _ & _ & _ & _ & _ & _ & _ &
                             _ & H & _); exact H).
    cbn. split; [exact Hprefs|]. split; [reflexivity|].
    right; right. exists prefsData. rewrite Hsend. reflexivity.
Qed.

(** ** Progress *)

Lemma reportProgress_percent fileData fileIndex written total :
  0 <= written <= total -> 0 < total ->
  percent (fo_reportProgress (flashOptions fileData) fileIndex written total).
Proof.
  intros Hw Ht. unfold percent. cbn [flashOptions fo_reportProgress].
  destruct total as [|total|total]; try lia.
  unfold Qle, Qdiv, Qmult, Qinv, inject_Z. cbn. split; nia.
Qed.

(** X10: while the loader writes, the progress shown stays a percentage:
    it is between 0 and 100 after any reports that give some of the
    bytes of a file that is not empty. *)
Theorem reportAll_percent (fileData : jsstring) (reports : list (Z * Z * Z))
  (w : World) :
  Forall partOfFile reports -> percent (progress w) ->
  percent (progress (reportAll (flashOptions fileData) reports w)).
Proof.
  intros Hall. revert w.
  induction Hall as [|[[i written] total] reports [Hw Ht] _ IH]; intros w Hp.
  - exact Hp.
  - unfold reportAll in *. cbn [fold_left]. apply IH.
    destruct w as [b ic ch dev tr ld sp wr rd ie ip pg pf il iu e n inc op tc].
    exact (reportProgress_percent fileData i written total Hw Ht).
Qed.

(** The theorem at the reports of the example loader, on a fresh page. *)
Lemma reportAll_percent_example :
  percent (progress (reportAll (flashOptions (lit "image"))
                       [(0, 1024, 2048); (0, 2048, 2048)] freshWorld)).
Proof.
  apply reportAll_percent.
  - repeat constructor; cbn; lia.
  - unfold percent, Qle; cbn; lia.
Defined.

(** ** An answer that comes at once *)

(** X11: when the first read brings, in less than 1000 ms, a chunk that
    is not empty and holds [END] or [ERROR], [sendCommand] returns that
    chunk, trimmed, after this one read: it reads no further, and what
    the device sent after the chunk stays in the stream. *)
Theorem sendCommand_first_chunk (command : jsstring) (w : World)
  (wr : writer) (rd : reader) (l : nat) (v : bytes) (rest : list read_reply) :
  writerRef w = Some wr -> readerRef w = Some rd ->
  (exists a, answer (env w) (trace w) (commandLine command w wr) = Resolve a) ->
  incoming w = chunk l v :: rest ->
  (l < 1000)%nat -> (0 < length v)%nat ->
  hasMarker (TextDecoder_decode (env w) v) = true ->
  exists w',
    sendCommand command w = (Ok (trim (TextDecoder_decode (env w) v)), w') /\
    trace w' = trace w ++ [Call (commandLine command w wr);
                           Read rd (now w) (Got v)] /\
    incoming w' = rest /\ now w' = (now w + l)%nat.
Proof.
  intros Hwr Hrd [a Hans] Hin Hl Hv Hm.
  unfold sendCommand. rewrite Hwr, Hrd. unfold bind, perform.
  fold (commandLine command w wr). rewrite Hans.
  destruct w as [b ic ch dev tr ld sp wr0 rd0 ie ip pg pf il iu e n inc op tc].
  cbn in Hin, Hm |- *. subst inc.
  unfold readFuel. cbn.
  rewrite Nat.sub_diag. change (0 <? timeout)%nat with true. cbn.
  unfold readOnce, tryCatch, bind, raceRead, pure, log. cbn.
  apply Nat.ltb_lt in Hl, Hv. rewrite Hl. cbn. rewrite Hv, Hm. cbn.
  eexists. split; [reflexivity|]. cbn. rewrite <- app_assoc.
  repeat split.
Qed.

(** The theorem at a device that answers 5 ms after the command. *)
Lemma sendCommand_first_chunk_example :
  exists w',
    sendCommand PING promptWorld
    = (Ok (trim (TextDecoder_decode (env promptWorld) (lit "OK END "))), w') /\
    trace w' = trace promptWorld
               ++ [Call (commandLine PING promptWorld (Writer 1%nat));
                   Read (Reader 1%nat) (now promptWorld) (Got (lit "OK END "))] /\
    incoming w' = [chunk 1 (lit "more")] /\ now w' = (now promptWorld + 5)%nat.
Proof.
  apply (sendCommand_first_chunk PING promptWorld (Writer 1%nat) (Reader 1%nat)
           5%nat (lit "OK END ") [chunk 1 (lit "more")]);
    try reflexivity.
  - exists tt. reflexivity.
  - lia.
  - vm_compute. lia.
Defined.

(** ** Loading a firmware image *)

Lemma binaryString_map uint8Array :
  binaryString uint8Array = map fromCharCode uint8Array.
Proof.
  unfold binaryString.
  enough (H : forall acc,
             fold_left (fun s b => s ++ [fromCharCode b]) uint8Array acc
             = acc ++ map fromCharCode uint8Array) by apply (H []).
  induction uint8Array as [|b l IH]; intros acc; cbn.
  - rewrite app_nil_r. reflexivity.
  - rewrite IH, <- app_assoc. reflexivity.
Qed.

Lemma low_byte b : Z.land (fromCharCode (b mod 256)) 0xff = b mod 256.
Proof.
  unfold fromCharCode.
  assert (0 <= b mod 256 < 256) by (apply Z.mod_pos_bound; lia).
  rewrite Z.mod_small by lia.
  change 0xff with (Z.ones 8). rewrite Z.land_ones by lia.
  apply Z.mod_small. change (2 ^ 8) with 256. lia.
Qed.

(** X12: the string that [loadFirmware] builds has one character for
    every byte of the file, and the checksum callback of [writeFlash]
    reads the bytes of the file back from it: the digest it hands to
    the loader is the MD5 of the file that was fetched. *)
Theorem binaryString_checksum (arrayBuffer : bytes) :
  length (binaryString (Uint8Array arrayBuffer)) = length arrayBuffer /\
  CryptoJS.Latin1_parse (binaryString (Uint8Array arrayBuffer))
  = Uint8Array arrayBuffer /\
  calculateMD5Hash (binaryString (Uint8Array arrayBuffer))
  = CryptoJS.Hex_stringify (CryptoJS.MD5 (Uint8Array arrayBuffer)).
Proof.
  assert (H : CryptoJS.Latin1_parse (binaryString (Uint8Array arrayBuffer))
              = Uint8Array arrayBuffer).
  { rewrite binaryString_map. unfold CryptoJS.Latin1_parse, Uint8Array.
    rewrite !map_map. apply map_ext. intros b. apply low_byte. }
  split; [|split; [exact H|]].
  - rewrite binaryString_map. unfold Uint8Array. rewrite !length_map.
    reflexivity.
  - unfold calculateMD5Hash. rewrite H. reflexivity.
Qed.

(** X13: what [loadFirmware] comes back with.  Without a version it
    throws [No version selected] and does nothing, no fetch included.
    With one it fetches the file of that version once and clears the
    loading flag at the end; it returns the image and keeps it when the
    response is ok and its body can be read; otherwise it throws, [Failed to
    load firmware: ] with the status when the response is not ok, and
    the image kept before stays.  The serial session and the alert are
    not touched. *)
Theorem loadFirmware_outcome (version : jsstring) (pg : Page) :
  match loadFirmware version pg with
  | (Ok image, pg') =>
      exists response buffer,
        fetch (platform pg) (fetched pg) (firmwarePath version)
        = Resolve response /\
        ok response = true /\ arrayBuffer response = Resolve buffer /\
        image = binaryString (Uint8Array buffer) /\
        firmwareData pg' = Some image /\ isLoadingFirmware pg' = false /\
        fetched pg' = fetched pg ++ [firmwarePath version] /\
        world pg' = world pg /\ alert pg' = alert pg
  | (Err e, pg') =>
      firmwareData pg' = firmwareData pg /\
      world pg' = world pg /\ alert pg' = alert pg /\
      if truthy version
      then isLoadingFirmware pg' = false /\
           fetched pg' = fetched pg ++ [firmwarePath version] /\
           match fetch (platform pg) (fetched pg) (firmwarePath version) with
           | Reject e' => e = e'
           | Resolve response =>
               if ok response then arrayBuffer response = Reject e
               else e = loadFailed response
           end
      else e = noVersion /\ pg' = pg
  end.
Proof.
  unfold loadFirmware.
  destruct (truthy version); cbn [negb];
    [|repeat split; reflexivity].
  unfold pageFinally, pageBind, update, doFetch, await, pageThrow, pagePure.
  destruct pg as [w al sv fd lf pf ft cs]. cbn.
  destruct (fetch pf ft (firmwarePath version)) as [response|e]; cbn;
    [|repeat split; reflexivity].
  destruct (ok response) eqn:Hok; cbn; [|repeat split; reflexivity].
  destruct (arrayBuffer response) as [buffer|e] eqn:Hbuf; cbn;
    [|repeat split; reflexivity].
  exists response, buffer. repeat split; assumption.
Qed.

(** ** Choosing a version *)

(** X14: after [handleVersionChange] the version shown is the one
    chosen, whatever happened, and the image kept is never one of an
    earlier version: it is the image just loaded when loading
    succeeded, and none otherwise.  Choosing the empty entry fetches
    nothing and succeeds. *)
Theorem handleVersionChange_outcome (version : jsstring) (pg : Page) :
  match handleVersionChange version pg with
  | (Ok _, pg') =>
      selectedVersion pg' = version /\
      if truthy version
      then exists response buffer,
             fetch (platform pg) (fetched pg) (firmwarePath version)
             = Resolve response /\
             arrayBuffer response = Resolve buffer /\
             firmwareData pg' = Some (binaryString (Uint8Array buffer))
      else firmwareData pg' = None /\ fetched pg' = fetched pg
  | (Err _, pg') =>
      selectedVersion pg' = version /\ firmwareData pg' = None /\
      truthy version = true
  end.
Proof.
  unfold handleVersionChange, loadFirmware.
  unfold pageFinally, pageBind, update, doFetch, await, pageThrow, pagePure.
  destruct pg as [w al sv fd lf pf ft cs]. cbn.
  destruct (truthy version); cbn; [|repeat split; reflexivity].
  destruct (fetch pf ft (firmwarePath version)) as [response|e]; cbn;
    [|repeat split; reflexivity].
  destruct (ok response); cbn; [|repeat split; reflexivity].
  destruct (arrayBuffer response) as [buffer|e] eqn:Hbuf; cbn;
    [|repeat split; reflexivity].
  split; [reflexivity|]. exists response, buffer. repeat split. exact Hbuf.
Qed.

(** ** The handlers of the page *)

Lemma includes_app_r a b pat :
  includes b pat = true -> includes (a ++ b) pat = true.
Proof.
  intros H. induction a as [|c a IH]; [exact H|].
  change (includes ((c :: a) ++ b) pat)
    with (startsWith pat (c :: a ++ b) || includes (a ++ b) pat).
  rewrite IH. apply orb_true_r.
Qed.

Lemma sendCommand_trim command w response w' :
  sendCommand command w = (Ok response, w') -> trim response = response.
Proof.
  unfold sendCommand.
  destruct (writerRef w) as [wr|]; [|discriminate].
  destruct (readerRef w) as [rd|]; [|discriminate].
  unfold bind. destruct (perform _ w) as [[a|e] w1]; [|discriminate].
  destruct (readLoop _ _ _ _ _) as [[[raw|e] w2]|]; intros H;
    inversion H; subst; [apply trim_clean | reflexivity].
Qed.

Lemma disconnect_flags w :
  match disconnect w with
  | (Ok _, w') =>
      isConnected w' = false /\ chip w' = None /\
      preferences w' = preferences w
  | (Err _, w') =>
      isConnected w' = isConnected w /\ preferences w' = preferences w
  end.
Proof. run w; repeat split; reflexivity. Qed.

(** What [handleError] shows for an error of the flash operations. *)
Lemma handleError_not_programmed e pg :
  alert (handleError e (lit "Programming failed") pg) <> programmed.
Proof.
  unfold handleError. cbn [alert set_alert].
  destruct (includes _ _); intros H; vm_compute in H; discriminate H.
Qed.

(** X15: the handlers that wrap their work in [try] and [catch] never
    throw: whatever the operation under them does, the promise of the
    handler is fulfilled. *)
Theorem handlers_catch (pg : Page) :
  fst (handleConnect pg) = Ok tt /\
  fst (handleEraseFlash pg) = Ok tt /\
  fst (handleProgram pg) = Ok tt /\
  fst (handleGetAllSettings pg) = Ok tt /\
  fst (handleUpdateAllSettings pg) = Ok tt /\
  forall version, fst (handleVersionSelect version pg) = Ok tt.
Proof.
  repeat match goal with |- _ /\ _ => split end.
  - unfold handleConnect, pageCatch, onWorld, update.
    destruct (connect (world pg)) as [[[]|e] w']; reflexivity.
  - unfold handleEraseFlash, pageCatch, onWorld, update.
    destruct (eraseFlash (world pg)) as [[[]|e] w']; reflexivity.
  - unfold handleProgram, pageCatch, pageBind, onWorld, update.
    destruct (firmwareData pg) as [[|c s]|]; try reflexivity.
    cbn [world clearAlert set_alert].
    destruct (programFlash (c :: s) (world pg)) as [[[]|e] w']; reflexivity.
  - unfold handleGetAllSettings, pageCatch, pageBind, onWorld, update.
    cbn [world clearAlert set_alert].
    destruct (getAllSettings (world pg)) as [[[]|e] w']; reflexivity.
  - unfold handleUpdateAllSettings, pageCatch, pageBind, onWorld, update.
    cbn [world clearAlert set_alert].
    destruct (updateAllSettings (world pg)) as [[result|e] w']; reflexivity.
  - intros version. unfold handleVersionSelect, pageCatch, pageBind, update.
    destruct (handleVersionChange version (clearAlert pg)) as [[[]|e] pg'];
      reflexivity.
Qed.

(** X16: [handleDisconnect] has no [catch].  When [disconnect] succeeds
    the alert and the preferences text are emptied and the session is
    Disconnected; when a release step is rejected the handler throws
    that error, and the alert and the preferences text stay as they
    were. *)
Theorem handleDisconnect_outcome (pg : Page) :
  match handleDisconnect pg with
  | (Ok _, pg') =>
      alert pg' = [] /\ preferences (world pg') = [] /\
      sessionMode (world pg') = Disconnected /\ chip (world pg') = None
  | (Err e, pg') =>
      fst (disconnect (world pg)) = Err e /\
      alert pg' = alert pg /\ console pg' = console pg /\
      preferences (world pg') = preferences (world pg) /\
      isConnected (world pg') = isConnected (world pg)
  end.
Proof.
  unfold handleDisconnect, pageBind, onWorld, update, setPreferences, clearAlert.
  pose proof (disconnect_flags (world pg)) as H.
  destruct (disconnect (world pg)) as [[[]|e] w']; cbn.
  - destruct H as (Hc & Hchip & _).
    repeat match goal with |- _ /\ _ => split end; try reflexivity.
    + apply sessionMode_Disconnected. exact Hc.
    + exact Hchip.
  - destruct H as (Hc & Hp). repeat split; assumption.
Qed.

(** X17: without an image, [null] or the empty string, [handleProgram]
    does nothing to the serial session: it only shows that no firmware
    is loaded. *)
Theorem handleProgram_without_firmware (pg : Page) :
  firmwareData pg = None \/ firmwareData pg = Some [] ->
  world (snd (handleProgram pg)) = world pg /\
  alert (snd (handleProgram pg))
  = lit "Programming failed: No firmware loaded! Please select a version first.".
Proof.
  unfold handleProgram, update.
  intros [-> | ->]; split; reflexivity.
Qed.

Lemma handleProgram_without_firmware_example :
  world (snd (handleProgram freshPage)) = world freshPage /\
  alert (snd (handleProgram freshPage))
  = lit "Programming failed: No firmware loaded! Please select a version first.".
Proof.
  apply (handleProgram_without_firmware freshPage). left. reflexivity.
Defined.

(** X18: with an image, [handleProgram] runs [programFlash] on it, and
    the alert says that programming completed exactly when
    [programFlash] succeeded. *)
Theorem handleProgram_completed (pg : Page) (fileData : jsstring) :
  firmwareData pg = Some fileData -> truthy fileData = true ->
  world (snd (handleProgram pg)) = snd (programFlash fileData (world pg)) /\
  (alert (snd (handleProgram pg)) = programmed <->
   fst (programFlash fileData (world pg)) = Ok tt).
Proof.
  intros Hfw Hd. unfold handleProgram. rewrite Hfw.
  destruct fileData as [|c s]; [discriminate Hd|].
  unfold pageCatch, pageBind, onWorld, update.
  cbn [world clearAlert set_alert].
  destruct (programFlash (c :: s) (world pg)) as [[[]|e] w']; cbn [fst snd].
  - split; [reflexivity|]. split; reflexivity.
  - split; [reflexivity|]. split; [|discriminate].
    intros H. exfalso. revert H. apply handleError_not_programmed.
Qed.

Lemma handleProgram_completed_example :
  world (snd (handleProgram loadedPage))
  = snd (programFlash (lit "image") (world loadedPage)) /\
  (alert (snd (handleProgram loadedPage)) = programmed <->
   fst (programFlash (lit "image") (world loadedPage)) = Ok tt).
Proof.
  apply (handleProgram_completed loadedPage (lit "image")); reflexivity.
Defined.

(** ** The settings on the page *)

(** X19: when the preferences text is not blank and does not parse, and
    the message of the engine's [SyntaxError] names JSON, the update
    handler shows [Invalid JSON format in preferences]; nothing was
    sent to the device and the text is as it was. *)
Theorem handleUpdateAllSettings_malformed (pg : Page) :
  truthy (trim (preferences (world pg))) = true ->
  JSON_parse (env (world pg)) (preferences (world pg)) = None ->
  includes (syntaxErrorMessage (platform pg)) (lit "JSON") = true ->
  alert (snd (handleUpdateAllSettings pg)) = invalidJSON /\
  trace (world (snd (handleUpdateAllSettings pg))) = trace (world pg) /\
  preferences (world (snd (handleUpdateAllSettings pg)))
  = preferences (world pg).
Proof.
  intros Htext Hparse Hmsg.
  unfold handleUpdateAllSettings, pageCatch, pageBind, onWorld, update.
  cbn [world clearAlert set_alert].
  unfold updateAllSettings. rewrite Htext, Hparse. cbn [negb].
  unfold tryFinally, bind, modify, throw, handleError.
  destruct pg as [w al sv fd lf pf ft cs].
  cbn in Hmsg |- *. rewrite Hmsg.
  destruct w as [b ic ch dev tr ld sp wr rd ie ip pg pfs il iu e n inc op tc].
  repeat split.
Qed.

Lemma handleUpdateAllSettings_malformed_example :
  alert (snd (handleUpdateAllSettings malformedPage)) = invalidJSON /\
  trace (world (snd (handleUpdateAllSettings malformedPage)))
  = trace (world malformedPage) /\
  preferences (world (snd (handleUpdateAllSettings malformedPage)))
  = preferences (world malformedPage).
Proof.
  apply (handleUpdateAllSettings_malformed malformedPage);
    vm_compute; reflexivity.
Defined.

(** X20: [handleError] goes by the message alone.  When the device
    answers the update with an [ERROR] whose text names JSON, the
    handler shows [Invalid JSON format in preferences], although the
    text parsed and was sent. *)
Theorem handleUpdateAllSettings_rejected (pg : Page) (response : jsstring) :
  fst (updateAllSettings (world pg)) = Err (updateFailed response) ->
  includes response (lit "JSON") = true ->
  alert (snd (handleUpdateAllSettings pg)) = invalidJSON.
Proof.
  intros Hres Hjson.
  unfold handleUpdateAllSettings, pageCatch, pageBind, onWorld, update.
  cbn [world clearAlert set_alert].
  destruct (updateAllSettings (world pg)) as [[result|e] w'];
    cbn in Hres; [discriminate Hres|].
  injection Hres as ->.
  unfold handleError, updateFailed. cbn [snd alert set_alert messageOf].
  rewrite includes_app_r by exact Hjson. reflexivity.
Qed.

Lemma handleUpdateAllSettings_rejected_example :
  alert (snd (handleUpdateAllSettings rejectedPage)) = invalidJSON.
Proof.
  apply (handleUpdateAllSettings_rejected rejectedPage (lit "ERROR: bad JSON"));
    vm_compute; reflexivity.
Defined.

(** X21: the PING button has no [catch] either.  When [sendCommand]
    returns, the preferences text is replaced by the answer, which is
    trimmed; when it throws, the handler throws, and the text and the
    alert stay as they were. *)
Theorem pingClick_outcome (pg : Page) :
  match pingClick pg with
  | (Ok _, pg') =>
      fst (sendCommand PING (world pg)) = Ok (preferences (world pg')) /\
      trim (preferences (world pg')) = preferences (world pg') /\
      alert pg' = alert pg
  | (Err e, pg') =>
      fst (sendCommand PING (world pg)) = Err e /\
      preferences (world pg') = preferences (world pg) /\
      alert pg' = alert pg /\ console pg' = console pg
  end.
Proof.
  unfold pingClick, pageBind, onWorld, update, setPreferences.
  change (lit "PING") with PING.
  pose proof (sendCommand_undisturbed PING (world pg)) as Hsame.
  pose proof (sendCommand_trim PING (world pg)) as Htrim.
  destruct (sendCommand PING (world pg)) as [[response|e] w']; cbn.
  - repeat split. apply (Htrim response w'). reflexivity.
  - destruct Hsame as (_ & _ & _ & _ & _ & _ & _ & _ & _ & _ & _ & _ & _ &
                       H & _).
    repeat split. exact H.
Qed.

(** ** The page at work *)

Example loadFirmware_missing_version :
  fst (loadFirmware (lit "0.9.0") freshPage)
  = Err (Error (lit "Failed to load firmware: 404 Not Found")) /\
  alert (snd (handleVersionSelect (lit "0.9.0") freshPage))
  = lit "Failed to load firmware: Failed to load firmware: 404 Not Found" /\
  selectedVersion (snd (handleVersionSelect (lit "0.9.0") freshPage))
  = lit "0.9.0".
Proof. vm_compute. repeat split; reflexivity. Qed.

Example loadFirmware_release :
  fst (loadFirmware (lit "1.0.0") freshPage) = Ok [0; 128; 255] /\
  firmwareData (snd (handleVersionSelect (lit "1.0.0") freshPage))
  = Some [0; 128; 255] /\
  fetched (snd (handleVersionSelect (lit "1.0.0") freshPage))
  = [lit "./firmwares/1.0.0/dashboard-lilygo-t-displays3.bin"].
Proof. vm_compute. repeat split; reflexivity. Qed.

Example pingClick_silent_device :
  preferences (world (snd (pingClick
     (setPreferences (lit "true") (initialPage silentWorld testPlatform)))))
  = [] /\
  fst (pingClick freshPage) = Err notConnected.
Proof. vm_compute. split; reflexivity. Qed.
